(** * The chunked speech-synthesis pipeline, embedded in Rocq

    A shallow embedding of three pieces of the TypeScript sources:

    - [DocumentProcessor.splitDocument]        (documentProcessor.ts)
    - [OpenAIClient.generateSpeech]            (openaiClient.ts)
    - [SpeechGenerator.generateSpeechFromDocument] and
      [SpeechGenerator.combineAudioFiles]      (speechGenerator.ts)

    JavaScript strings are sequences of UTF-16 code units, numbers are
    rationals extended with NaN and the two infinities, exceptions are an
    explicit [completion] type, and every interaction with the outside
    (HTTP request, timer, file write, child process) appends an [event] to
    the history of the run.  The answers of the outside are functions of
    that history, taken as section variables, so each theorem holds for every
    remote, file system and shell.  Console output is not modelled. *)

From Equations Require Import Equations.
From Stdlib Require Import Ascii String DecimalString DecimalNat.
From Stdlib Require Import List ZArith QArith Qround Lia Bool Sorted Arith.
Import ListNotations.

Set Implicit Arguments.
Local Open Scope Z_scope.

(** ** JavaScript values *)

Module JS.

(** A string is its list of UTF-16 code units; [length] and [slice] of the
    source count code units. *)
Definition code_unit := N.
Definition jsstring := list code_unit.

(** String literals of the source (all ASCII). *)
Definition js (s : string) : jsstring :=
  map N_of_ascii (list_ascii_of_string s).

(** WhiteSpace and LineTerminator code points of ECMAScript, the ones
    [String.prototype.trim] strips. *)
Definition is_white_space (c : code_unit) : bool :=
  ((9 <=? c) && (c <=? 13))%N          (* TAB, LF, VT, FF, CR *)
  || (c =? 32)%N                        (* SPACE *)
  || (c =? 160)%N                       (* NO-BREAK SPACE *)
  || (c =? 5760)%N                      (* U+1680 *)
  || ((8192 <=? c) && (c <=? 8202))%N   (* U+2000 .. U+200A *)
  || (c =? 8232)%N || (c =? 8233)%N     (* U+2028, U+2029 *)
  || (c =? 8239)%N || (c =? 8287)%N     (* U+202F, U+205F *)
  || (c =? 12288)%N                     (* U+3000 *)
  || (c =? 65279)%N.                    (* U+FEFF *)

Fixpoint trimStart (s : jsstring) : jsstring :=
  match s with
  | c :: s' => if is_white_space c then trimStart s' else s
  | [] => []
  end.

Definition trimEnd (s : jsstring) : jsstring := rev (trimStart (rev s)).

Definition trim (s : jsstring) : jsstring := trimEnd (trimStart s).

(** Truthiness of a string: the empty string is the only falsy one. *)
Definition truthy_string (s : jsstring) : bool :=
  match s with [] => false | _ :: _ => true end.

(** [String.prototype.slice] on integer arguments: a negative index counts
    from the end, both indices are clamped to the string. *)
Definition relative_index (len k : Z) : Z :=
  if k <? 0 then Z.max (len + k) 0 else Z.min k len.

Definition slice (s : jsstring) (start finish : Z) : jsstring :=
  let len := Z.of_nat (length s) in
  let from := relative_index len start in
  let to := relative_index len finish in
  firstn (Z.to_nat (Z.max (to - from) 0)) (skipn (Z.to_nat from) s).

(** [Array.prototype.join] on an array of strings. *)
Fixpoint join (sep : jsstring) (parts : list jsstring) : jsstring :=
  match parts with
  | [] => []
  | [p] => p
  | p :: rest => p ++ sep ++ join sep rest
  end.

(** A number: a finite value, NaN, or an infinity.  Every double is one of
    these; minus zero is [Finite 0], which no operation below tells apart
    from zero. *)
Inductive number : Type :=
  | Finite (q : Q)
  | NaN
  | PosInfinity
  | NegInfinity.

Definition of_Z (z : Z) : number := Finite (inject_Z z).

Definition Number_isInteger (x : number) : bool :=
  match x with
  | Finite q => Qeq_bool q (inject_Z (Qfloor q))
  | _ => false
  end.

(** [x <= y] and [x > y]; any comparison with NaN is false. *)
Definition num_le (x y : number) : bool :=
  match x, y with
  | NaN, _ | _, NaN => false
  | NegInfinity, _ => true
  | _, PosInfinity => true
  | PosInfinity, _ => false
  | _, NegInfinity => false
  | Finite a, Finite b => Qle_bool a b
  end.

Definition num_gt (x y : number) : bool :=
  match x, y with
  | NaN, _ | _, NaN => false
  | NegInfinity, _ => false
  | _, PosInfinity => false
  | PosInfinity, _ => true
  | _, NegInfinity => true
  | Finite a, Finite b => negb (Qle_bool a b)
  end.

(** Truthiness of an optional number: undefined, zero and NaN are falsy. *)
Definition truthy_number (x : option number) : bool :=
  match x with
  | None => false
  | Some NaN => false
  | Some (Finite q) => negb (Qeq_bool q 0)
  | Some _ => true
  end.

(** The integral part of a number, used once [Number_isInteger] holds. *)
Definition integral_part (x : number) : Z :=
  match x with
  | Finite q => Qfloor q
  | _ => 0
  end.

(** Decimal rendering of a natural number, as [`${n}`] gives it. *)
Definition decimal (n : nat) : jsstring :=
  js (NilZero.string_of_uint (Nat.to_uint n)).

Fixpoint string_eqb (s t : jsstring) : bool :=
  match s, t with
  | [], [] => true
  | c :: s', d :: t' => (c =? d)%N && string_eqb s' t'
  | _, _ => false
  end.

(** A [Buffer] is its bytes. *)
Definition buffer := list Byte.byte.

(** What a call completes with: a value, or a thrown error object. *)
Inductive js_error : Type :=
  | Error (message : jsstring)
  | OpenAIError (message : jsstring) (statusCode : Z) (errorCode : jsstring).

Inductive completion (A : Type) : Type :=
  | Return (a : A)
  | Throw (e : js_error).
Arguments Throw {A} e.

End JS.
Import JS.

(** ** documentProcessor.ts *)

Module DocumentProcessor.

(** The loop of [splitDocument]:
    [for (let i = 0; i < text.length; i += chunkSize)
       chunks.push(text.slice(i, i + chunkSize))].
    The step is positive on this path, which is what makes the loop end.
    The index is an integer throughout; it is kept exact here, as it is in
    the source for every index that is within the length of a string. *)
Equations? chunk_loop (text : jsstring) (chunkSize : positive) (i : Z)
    (chunks : list jsstring) : list jsstring
    by wf (Z.to_nat (Z.of_nat (length text) - i)) lt :=
  chunk_loop text chunkSize i chunks with Z_lt_dec i (Z.of_nat (length text)) := {
    | left _ =>
        chunk_loop text chunkSize (i + Z.pos chunkSize)
          (chunks ++ [slice text i (i + Z.pos chunkSize)])
    | right _ => chunks }.
Proof. lia. Qed.

(** [chunkSize] defaults to 1000 when it is left out. *)
Definition splitDocument (text : jsstring) (chunkSize : number)
  : completion (list jsstring) :=
  if negb (truthy_string (trim text)) then Return []
  else if negb (Number_isInteger chunkSize) || num_le chunkSize (of_Z 0)
  then Throw (Error (js "chunkSize must be a positive integer."))
  else Return (chunk_loop text (Z.to_pos (integral_part chunkSize)) 0 []).

End DocumentProcessor.
Import DocumentProcessor.


(** ** The outside world *)

Module World.

(** The body of the request sent to the synthesis endpoint. *)
Record payload : Type := mkPayload {
  model : jsstring;
  input : jsstring;
  voice : jsstring;
  instructions : jsstring }.

(** How an axios request can be rejected.  The handler of the client tells
    the three cases apart by [error.response] and [error.request]. *)
Inductive axios_error : Type :=
  | WithResponse (status : Z) (data : option buffer)
  | WithRequest (code : option jsstring) (message : jsstring)
  | Setup (message : jsstring).

Inductive axios_outcome : Type :=
  | Fulfilled (status : Z) (data : buffer)
  | Rejected (error : axios_error).

(** One interaction with the outside, with the answer received. *)
Inductive event : Type :=
  | EvPost (p : payload) (r : axios_outcome)
  | EvSleep (ms : Z)
  | EvWrite (path : jsstring) (data : buffer) (r : option js_error)
  | EvExec (command : jsstring) (r : option js_error).

(** The history of a run, oldest event first. *)
Definition history := list event.

(** The requests of a history, and the delays waited, in order. *)
Definition posts (h : history) : list payload :=
  flat_map (fun e => match e with EvPost p _ => [p] | _ => [] end) h.

Definition sleeps (h : history) : list Z :=
  flat_map (fun e => match e with EvSleep ms => [ms] | _ => [] end) h.

(** The files written with success, in order. *)
Definition persisted (h : history) : list jsstring :=
  flat_map (fun e => match e with EvWrite p _ None => [p] | _ => [] end) h.

End World.
Import World.

(** ** openaiClient.ts *)

Module OpenAIClient.

Record VoiceOptions : Type := mkVoiceOptions {
  speed : option number;    (* 0.5 to 2.0 *)
  pitch : option number;    (* -10 to 10 *)
  volume : option number }. (* 0.5 to 2.0 *)

(** [{}], the default of the [voiceOptions] parameter. *)
Definition no_options : VoiceOptions := mkVoiceOptions None None None.

(** [x > y] for an optional [x]: undefined converts to NaN. *)
Definition opt_gt (x : option number) (y : number) : bool :=
  match x with
  | Some v => num_gt v y
  | None => false
  end.

(** "Incorporate voice options into instructions". *)
Definition formatInstructions (instructions : jsstring)
    (voiceOptions : VoiceOptions) : jsstring :=
  let formattedInstructions := instructions in
  let formattedInstructions :=
    if truthy_number (speed voiceOptions)
    then formattedInstructions ++ js " Speak at "
           ++ (if opt_gt (speed voiceOptions) (of_Z 1)
               then js "a faster" else js "a slower")
           ++ js " pace."
    else formattedInstructions in
  let formattedInstructions :=
    if truthy_number (pitch voiceOptions)
    then formattedInstructions ++ js " Use "
           ++ (if opt_gt (pitch voiceOptions) (of_Z 0)
               then js "a higher" else js "a lower")
           ++ js " pitch."
    else formattedInstructions in
  formattedInstructions.

Definition maxRetries : Z := 3.

Section Client.

(** The remote: what [axios.post] settles with, given the history so far.
    The headers and the timeout are the same in every call of a client and
    are part of this function. *)
Variable axios_post : history -> payload -> axios_outcome.

(** [new TextDecoder().decode], which may throw. *)
Variable TextDecoder_decode : buffer -> completion jsstring.

(** The [catch] block of [generateSpeech], entered with [attempt] already
    incremented.  [Some e] is a [throw]; [None] falls through to the wait
    before the next iteration. *)
Definition on_error (attempt : Z) (error : axios_error) : option js_error :=
  match error with
  | WithResponse statusCode data =>
      if statusCode =? 504 then
        Some (OpenAIError
          (js "OpenAI server timed out. This usually happens when processing large text. Try with a smaller chunk of text.")
          504 (js "OPENAI_TIMEOUT"))
      else if statusCode =? 429 then
        Some (OpenAIError
          (js "OpenAI API rate limit exceeded. Please try again after some time.")
          429 (js "RATE_LIMIT_EXCEEDED"))
      else
        let isTransientError := (500 <=? statusCode) && (statusCode <? 600) in
        if negb isTransientError || (maxRetries <=? attempt) then
          let errorData :=
            match data with
            | Some d =>
                match TextDecoder_decode d with
                | Return decoded => decoded
                | Throw _ => js "Unknown error"
                end
            | None => js "Unknown error"
            end in
          Some (OpenAIError (js "OpenAI API error: " ++ errorData)
                  statusCode (js "API_ERROR"))
        else None
  | WithRequest code _ =>
      if match code with
         | Some c => string_eqb c (js "ECONNABORTED")
         | None => false
         end
      then
        Some (OpenAIError
          (js "Request timed out. The OpenAI server took too long to respond.")
          504 (js "REQUEST_TIMEOUT"))
      else if maxRetries <=? attempt then
        Some (OpenAIError
          (js "Failed to receive response from OpenAI API after multiple attempts.")
          500 (js "NO_RESPONSE"))
      else None
  | Setup message =>
      if maxRetries <=? attempt then
        Some (OpenAIError (js "Request setup error: " ++ message)
                500 (js "REQUEST_SETUP_ERROR"))
      else None
  end.

(** The request of one attempt. *)
Definition request (text voice instructions : jsstring)
    (voiceOptions : VoiceOptions) : payload :=
  mkPayload (js "gpt-4o-mini-tts") text voice
    (formatInstructions instructions voiceOptions).

(** [while (attempt < maxRetries) { try { ... } catch (error) { ... } }],
    followed by the final [throw]. *)
Equations? retry_loop (p : payload) (attempt : Z) (h : history)
    : completion buffer * history
    by wf (Z.to_nat (maxRetries - attempt)) lt :=
  retry_loop p attempt h with Z_lt_dec attempt maxRetries := {
    | right _ =>
        (Throw (OpenAIError (js "Unexpected error in speech generation.")
                  500 (js "UNEXPECTED_ERROR")), h)
    | left _ with axios_post h p := {
        | Fulfilled status data =>
            (Return data, h ++ [EvPost p (Fulfilled status data)])
        | Rejected error with on_error (attempt + 1) error := {
            | Some e => (Throw e, h ++ [EvPost p (Rejected error)])
            | None =>
                retry_loop p (attempt + 1)
                  (h ++ [EvPost p (Rejected error);
                         EvSleep (1000 * (attempt + 1))]) } } }.
Proof.
  change (Z.to_nat (maxRetries - (attempt + 1))
          < Z.to_nat (maxRetries - attempt))%nat.
  unfold maxRetries in *. lia.
Qed.

Definition generateSpeech (text voice instructions : jsstring)
    (voiceOptions : VoiceOptions) (h : history)
  : completion buffer * history :=
  retry_loop (request text voice instructions voiceOptions) 0 h.

End Client.

End OpenAIClient.
Import OpenAIClient.

(** ** speechGenerator.ts *)

Module SpeechGenerator.

(** [s.replace(/\\/g, '/')] *)
Definition forward_slashes (s : jsstring) : jsstring :=
  map (fun c => if (c =? 92)%N then 47%N else c) s.

Section Generator.

Variable axios_post : history -> payload -> axios_outcome.
Variable TextDecoder_decode : buffer -> completion jsstring.

(** [path.join] of Node, which depends on the platform. *)
Variable path_join : jsstring -> jsstring -> jsstring.

(** [fs.writeFileSync]: [None] when the file was written, the error thrown
    otherwise. *)
Variable writeFileSync : history -> jsstring -> buffer -> option js_error.

(** The promisified [exec]: [None] when the command succeeded. *)
Variable execAsync : history -> jsstring -> option js_error.

(** [path.join(outputDir, `chunk_${i + 1}.mp3`)] *)
Definition chunk_path (outputDir : jsstring) (i : nat) : jsstring :=
  path_join outputDir (js "chunk_" ++ decimal (i + 1) ++ js ".mp3").

(** The [for] loop of [generateSpeechFromDocument] with its try/catch. *)
Equations? segment_loop (chunks : list jsstring)
    (outputDir voice instructions : jsstring)
    (i : nat) (filePaths : list jsstring) (h : history)
    : list jsstring * history
    by wf (length chunks - i)%nat lt :=
  segment_loop chunks outputDir voice instructions i filePaths h
    with lt_dec i (length chunks) := {
    | right _ => (filePaths, h)
    | left _
        with generateSpeech axios_post TextDecoder_decode
               (nth i chunks []) voice instructions no_options h := {
        | (Throw _, h1) =>
            segment_loop chunks outputDir voice instructions (S i) filePaths h1
        | (Return audioBuffer, h1)
            with writeFileSync h1 (chunk_path outputDir i) audioBuffer := {
            | Some e =>
                segment_loop chunks outputDir voice instructions (S i)
                  filePaths
                  (h1 ++ [EvWrite (chunk_path outputDir i) audioBuffer (Some e)])
            | None =>
                segment_loop chunks outputDir voice instructions (S i)
                  (filePaths ++ [forward_slashes (chunk_path outputDir i)])
                  (h1 ++ [EvWrite (chunk_path outputDir i) audioBuffer None])
          } } }.
Proof. all: lia. Qed.

Definition generateSpeechFromDocument
    (document outputDir voice instructions : jsstring) (h : history)
  : completion (list jsstring) * history :=
  let chunkSize := of_Z 1000 in
  match splitDocument document chunkSize with
  | Throw e => (Throw e, h)
  | Return chunks =>
      let '(filePaths, h') :=
        segment_loop chunks outputDir voice instructions 0 [] h in
      (Return filePaths, h')
  end.

(** The double quote character. *)
Definition quote : jsstring := [34%N].

(** The ffmpeg command line built by [combineAudioFiles]. *)
Definition concat_command (filePaths : list jsstring) (outputPath : jsstring)
  : jsstring :=
  let fileList :=
    join (js "|") (map (fun f => quote ++ f ++ quote) filePaths) in
  js "ffmpeg -i " ++ quote ++ js "concat:" ++ fileList ++ quote
    ++ js " -acodec copy " ++ quote ++ outputPath ++ quote.

(** [null] is [None]. *)
Definition combineAudioFiles (filePaths : list jsstring)
    (outputPath : jsstring) (h : history)
  : completion (option jsstring) * history :=
  if (length filePaths =? 0)%nat then (Return None, h)
  else if (length filePaths =? 1)%nat
  then (Return (Some (nth 0 filePaths [])), h)
  else
    let command := concat_command filePaths outputPath in
    match execAsync h command with
    | None => (Return (Some outputPath), h ++ [EvExec command None])
    | Some error =>
        (Throw (Error (js "Failed to combine audio files")),
         h ++ [EvExec command (Some error)])
    end.

End Generator.

End SpeechGenerator.
Import SpeechGenerator.

(** ** Vocabulary of the specification *)

(** A text that is empty or made of white space only. *)
Definition blank (text : jsstring) : bool := forallb is_white_space text.

(** Equality of numbers as values: NaN is no value. *)
Definition num_eq (x y : number) : Prop :=
  match x, y with
  | Finite a, Finite b => a == b
  | PosInfinity, PosInfinity => True
  | NegInfinity, NegInfinity => True
  | _, _ => False
  end.

Definition is_positive_integer (x : number) : Prop :=
  exists z : Z, 0 < z /\ num_eq x (of_Z z).

(** The least integer not below [a / b]. *)
Definition ceil_div (a b : Z) : Z := - ((- a) / b).

(** [x] is below [y]. *)
Definition num_lt (x y : number) : bool := num_gt y x.

(** The error kinds of the specification, read off the error objects the
    code throws: the message of the chunker's [Error], the [errorCode] of an
    [OpenAIError], and for [API_ERROR] the class of the status code. *)
Inductive ErrorKind : Type :=
  | InvalidArgument
  | UpstreamTimeout
  | RateLimited
  | RequestRejected
  | RequestTimeout
  | UpstreamError
  | NoResponse
  | RequestSetupError.

Definition kind_of (e : js_error) : option ErrorKind :=
  match e with
  | Error message =>
      if string_eqb message (js "chunkSize must be a positive integer.")
      then Some InvalidArgument else None
  | OpenAIError _ statusCode errorCode =>
      if string_eqb errorCode (js "OPENAI_TIMEOUT") then Some UpstreamTimeout
      else if string_eqb errorCode (js "RATE_LIMIT_EXCEEDED") then Some RateLimited
      else if string_eqb errorCode (js "REQUEST_TIMEOUT") then Some RequestTimeout
      else if string_eqb errorCode (js "NO_RESPONSE") then Some NoResponse
      else if string_eqb errorCode (js "REQUEST_SETUP_ERROR")
      then Some RequestSetupError
      else if string_eqb errorCode (js "API_ERROR") then
        if (500 <=? statusCode) && (statusCode <? 600) then Some UpstreamError
        else if (400 <=? statusCode) && (statusCode <? 500)
        then Some RequestRejected
        else None
      else None
  end.

(** The audio a call of [generateSpeech] returned, if it returned. *)
Definition audio_of (r : completion buffer) : option buffer :=
  match r with
  | Return audio => Some audio
  | Throw _ => None
  end.

(** The events of one call of [generateSpeech] for the request [p], and the
    audio it returned if any: requests that were rejected, each followed by
    a wait, and then one last request, fulfilled or rejected. *)
Inductive attempts (p : payload) : history -> option buffer -> Prop :=
  | attempts_fulfilled (status : Z) (audio : buffer) :
      attempts p [EvPost p (Fulfilled status audio)] (Some audio)
  | attempts_rejected (error : axios_error) :
      attempts p [EvPost p (Rejected error)] None
  | attempts_retry (error : axios_error) (ms : Z) (evs : history)
      (r : option buffer) :
      attempts p evs r ->
      attempts p (EvPost p (Rejected error) :: EvSleep ms :: evs) r.

(** The events of segment [i] of a run of the orchestrator, and the paths the
    segment adds to the result: the synthesis failed and nothing is written;
    or it gave audio, which is written to the file of the segment, and the
    path is added when the write succeeded. *)
Inductive segment_run (path_join : jsstring -> jsstring -> jsstring)
    (outputDir voice instructions : jsstring) (i : nat) (chunk : jsstring)
  : history -> list jsstring -> Prop :=
  | synthesis_failed (evs : history) :
      attempts (request chunk voice instructions no_options) evs None ->
      segment_run path_join outputDir voice instructions i chunk evs []
  | segment_persisted (evs : history) (audio : buffer) :
      attempts (request chunk voice instructions no_options) evs (Some audio) ->
      segment_run path_join outputDir voice instructions i chunk
        (evs ++ [EvWrite (chunk_path path_join outputDir i) audio None])
        [forward_slashes (chunk_path path_join outputDir i)]
  | write_failed (evs : history) (audio : buffer) (e : js_error) :
      attempts (request chunk voice instructions no_options) evs (Some audio) ->
      segment_run path_join outputDir voice instructions i chunk
        (evs ++ [EvWrite (chunk_path path_join outputDir i) audio (Some e)])
        [].

(** ** documentProcessor.ts: text preprocessing *)

Module Preprocessing.

(** [\w] without the flags [i] and [u]: ASCII letters, digits and [_]. *)
Definition is_word_char (c : code_unit) : bool :=
  (((48 <=? c) && (c <=? 57)) || ((65 <=? c) && (c <=? 90))
   || (c =? 95) || ((97 <=? c) && (c <=? 122)))%N.

(** The characters that [.] does not match. *)
Definition is_line_terminator (c : code_unit) : bool :=
  ((c =? 10) || (c =? 13) || (c =? 8232) || (c =? 8233))%N.

(** The regular expressions built by [expandAbbreviations] are sequences
    of these. *)
Inductive atom : Type :=
  | Char (c : code_unit)   (* a character, written as itself or escaped *)
  | AnyChar                (* [.] *)
  | WordBoundary.          (* [\b] *)

(** [new RegExp(src)] for a source made of plain characters, dots and the
    escapes [\b] and [\.], the only sources built below. *)
Fixpoint parse (src : jsstring) : list atom :=
  match src with
  | [] => []
  | c :: rest =>
      if (c =? 92)%N then
        match rest with
        | d :: rest' =>
            (if (d =? 98)%N then WordBoundary else Char d) :: parse rest'
        | [] => []
        end
      else if (c =? 46)%N then AnyChar :: parse rest
      else Char c :: parse rest
  end.

Definition word_at (c : option code_unit) : bool :=
  match c with
  | Some c => is_word_char c
  | None => false
  end.

(** A match of [r] that starts at the head of [s], where [prev] is the
    character before it: the number of characters matched. *)
Fixpoint match_here (r : list atom) (prev : option code_unit) (s : jsstring)
  : option nat :=
  match r with
  | [] => Some 0%nat
  | WordBoundary :: r' =>
      if xorb (word_at prev) (word_at (hd_error s))
      then match_here r' prev s else None
  | Char c :: r' =>
      match s with
      | d :: s' =>
          if (d =? c)%N then option_map S (match_here r' (Some d) s') else None
      | [] => None
      end
  | AnyChar :: r' =>
      match s with
      | d :: s' =>
          if is_line_terminator d then None
          else option_map S (match_here r' (Some d) s')
      | [] => None
      end
  end.

(** [text.replace(regexp, replacement)] for a global [regexp] and a
    replacement without [$]: every match, found from left to right, is
    replaced.  [skip] counts the characters of the current match that are
    still to be passed over. *)
Fixpoint replace_from (r : list atom) (replacement : jsstring) (skip : nat)
    (prev : option code_unit) (s : jsstring) : jsstring :=
  match s with
  | [] =>
      match skip, match_here r prev [] with
      | O, Some _ => replacement
      | _, _ => []
      end
  | c :: s' =>
      match skip with
      | S k => replace_from r replacement k (Some c) s'
      | O =>
          match match_here r prev s with
          | Some (S n) =>
              replacement ++ replace_from r replacement n (Some c) s'
          | Some O =>
              replacement ++ c :: replace_from r replacement 0 (Some c) s'
          | None => c :: replace_from r replacement 0 (Some c) s'
          end
      end
  end.

Definition replace_all (src replacement text : jsstring) : jsstring :=
  replace_from (parse src) replacement 0 None text.

Fixpoint starts_with (prefix s : jsstring) : bool :=
  match prefix, s with
  | [], _ => true
  | c :: prefix', d :: s' => (c =? d)%N && starts_with prefix' s'
  | _ :: _, [] => false
  end.

(** [s.replace(pattern, replacement)] for a string [pattern]: the first
    occurrence only. *)
Fixpoint replace_first (s pattern replacement : jsstring) : jsstring :=
  if starts_with pattern s then replacement ++ skipn (length pattern) s
  else
    match s with
    | c :: s' => c :: replace_first s' pattern replacement
    | [] => []
    end.

(** The entries of the object [abbreviations], in the order of the source. *)
Definition abbreviations : list (jsstring * jsstring) :=
  [ (js "Dr.", js "Doctor");
    (js "Mr.", js "Mister");
    (js "Mrs.", js "Missus");
    (js "e.g.", js "for example");
    (js "i.e.", js "that is");
    (js "etc.", js "etcetera") ].

(** The source of the regular expression of one abbreviation:
    [`\\b${abbr.replace('.', '\\.')}\\b`]. *)
Definition pattern_source (abbr : jsstring) : jsstring :=
  js "\b" ++ replace_first abbr (js ".") (js "\.") ++ js "\b".

Definition expandAbbreviations (text : jsstring) : jsstring :=
  fold_left
    (fun processedText entry =>
       replace_all (pattern_source (fst entry)) (snd entry) processedText)
    abbreviations text.

End Preprocessing.
Import Preprocessing.

(** ** The request handlers of the server *)

Module Server.

(** A field of a JSON request body, as far as the handlers look at it:
    absent, a string, or a value of another type, which is truthy or not. *)
Inductive json_value : Type :=
  | JAbsent
  | JString (s : jsstring)
  | JOther (truthy : bool).

(** The request of [/process-text].  The fields [voice] and [instructions]
    are strings when they are present; [session_id] is [req.session.id]. *)
Record text_request : Type := mkTextRequest {
  body_text : json_value;
  body_voice : option jsstring;
  body_instructions : option jsstring;
  session_id : option jsstring }.

(** The request of [/process] once the upload middleware has run:
    [uploaded] is [req.file.path] when there is a file. *)
Record file_request : Type := mkFileRequest {
  uploaded : option jsstring;
  form_voice : option jsstring;
  form_instructions : option jsstring }.

(** The JSON bodies the two handlers answer with. *)
Inductive json_body : Type :=
  | ErrorBody (error code : jsstring) (detail : option jsstring)
  | SpeechBody (message : jsstring) (files : list jsstring)
      (totalChunks : nat) (voice : jsstring).

Record http_response : Type := mkResponse {
  status : Z;
  body : json_body }.

(** An error of the runtime, such as the ones [fs] throws: a message and,
    most of the time, a code. *)
Record system_error : Type := mkSystemError {
  sys_message : jsstring;
  sys_code : option jsstring }.

(** What the [catch] block of a handler can receive. *)
Inductive thrown : Type :=
  | ThrownError (e : js_error)
  | ThrownSystem (e : system_error).

(** [value || fallback] for an optional string. *)
Definition or_default (value : option jsstring) (fallback : jsstring)
  : jsstring :=
  match value with
  | Some (c :: s) => c :: s
  | _ => fallback
  end.

(** [s.includes(sub)] *)
Fixpoint includes (s sub : jsstring) : bool :=
  starts_with sub s ||
  match s with
  | _ :: s' => includes s' sub
  | [] => false
  end.

Definition code_is (code : option jsstring) (name : jsstring) : bool :=
  match code with
  | Some c => string_eqb c name
  | None => false
  end.

Section Handlers.

Variable axios_post : history -> payload -> axios_outcome.
Variable TextDecoder_decode : buffer -> completion jsstring.
Variable path_join : jsstring -> jsstring -> jsstring.
Variable writeFileSync : history -> jsstring -> buffer -> option js_error.

(** [path.basename] and [path.dirname] of Node. *)
Variable path_basename : jsstring -> jsstring.
Variable path_dirname : jsstring -> jsstring.

(** [fs.existsSync], and [fs.mkdirSync] with [None] for success. *)
Variable existsSync : history -> jsstring -> bool.
Variable mkdirSync : history -> jsstring -> option system_error.

(** [fs.promises.readFile(path, 'utf-8')] and [fs.promises.unlink]. *)
Variable readFile : history -> jsstring -> jsstring + system_error.
Variable unlink : history -> jsstring -> option system_error.

(** [process.env.OPENAI_API_KEY], the directory of the generated files, and
    whether [process.env.NODE_ENV] is ['development']. *)
Variable apiKey : jsstring.
Variable generatedDir : jsstring.
Variable development : bool.

(** [new SpeechGenerator(apiKey)], which builds an [OpenAIClient]. *)
Definition new_SpeechGenerator : completion unit :=
  if negb (truthy_string apiKey)
  then Throw (Error (js "OpenAI API key is missing. Please set it in the .env file."))
  else Return tt.

(** The [catch] block shared by the two handlers, which differ in the
    advice of the timeout answer. *)
Definition error_response (timeout_advice : jsstring) (error : thrown)
  : http_response :=
  match error with
  | ThrownError (OpenAIError message statusCode errorCode) =>
      mkResponse statusCode (ErrorBody message errorCode None)
  | _ =>
      let message :=
        match error with
        | ThrownError (Error m) => m
        | ThrownError (OpenAIError m _ _) => m
        | ThrownSystem e => sys_message e
        end in
      let code :=
        match error with
        | ThrownSystem e => sys_code e
        | ThrownError _ => None
        end in
      let detail := if development then Some message else None in
      if truthy_string message &&
         (includes message (js "timeout") || includes message (js "timed out")
          || code_is code (js "ECONNABORTED") || code_is code (js "ETIMEDOUT"))
      then mkResponse 504 (ErrorBody timeout_advice (js "TIMEOUT_ERROR") None)
      else if truthy_string message && includes message (js "OpenAI API")
      then mkResponse 502
             (ErrorBody
                (js "Error communicating with the OpenAI service. Please try again later.")
                (js "API_ERROR") detail)
      else mkResponse 500
             (ErrorBody
                (js "Failed to generate speech. Please try again later.")
                (js "GENERAL_ERROR") detail)
  end.

Definition no_files_generated : http_response :=
  mkResponse 500
    (ErrorBody (js "Failed to generate any audio files.")
       (js "NO_FILES_GENERATED") None).

(** The handler of [POST /process-text]; [now] is [Date.now()]. *)
Definition process_text (req : text_request) (now : nat) (h : history)
  : http_response * history :=
  match body_text req with
  | JString (c :: t) =>
      let text := c :: t in
      let trimmedText := trim text in
      if (length trimmedText =? 0)%nat then
        (mkResponse 400
           (ErrorBody (js "Text input cannot be empty") (js "TEXT_EMPTY") None),
         h)
      else if (5000 <? length trimmedText)%nat then
        (mkResponse 400
           (ErrorBody (js "Text is too long. Maximum length is 5000 characters.")
              (js "TEXT_TOO_LONG") None),
         h)
      else
        let selectedVoice := or_default (body_voice req) (js "alloy") in
        let voiceInstructions :=
          or_default (body_instructions req) (js "Speak in a neutral tone.") in
        let timeout_advice :=
          js "The request to generate speech timed out. Try with a smaller text." in
        match new_SpeechGenerator with
        | Throw e => (error_response timeout_advice (ThrownError e), h)
        | Return _ =>
            let sessionId := or_default (session_id req) (decimal now) in
            let outputDir := path_join generatedDir sessionId in
            match (if negb (existsSync h outputDir)
                   then mkdirSync h outputDir else None) with
            | Some e => (error_response timeout_advice (ThrownSystem e), h)
            | None =>
                match generateSpeechFromDocument axios_post TextDecoder_decode
                        path_join writeFileSync
                        trimmedText outputDir selectedVoice voiceInstructions h
                with
                | (Throw e, h') =>
                    (error_response timeout_advice (ThrownError e), h')
                | (Return generatedFiles, h') =>
                    if (length generatedFiles =? 0)%nat
                    then (no_files_generated, h')
                    else
                      (mkResponse 200
                         (SpeechBody (js "Speech generation complete")
                            (map (fun file =>
                                    js "/generated/"
                                    ++ path_basename (path_dirname file)
                                    ++ js "/" ++ path_basename file)
                               generatedFiles)
                            (length generatedFiles) selectedVoice),
                       h')
                end
            end
        end
  | _ =>
      (mkResponse 400
         (ErrorBody (js "Text input is required") (js "TEXT_REQUIRED") None),
       h)
  end.

(** The handler of [POST /process], after [upload.single('file')] and
    [handleMulterError] have let the request through. *)
Definition process_file (req : file_request) (h : history)
  : http_response * history :=
  match uploaded req with
  | None =>
      (mkResponse 400
         (ErrorBody (js "Uploaded file is required") (js "FILE_REQUIRED") None),
       h)
  | Some file_path =>
      let voice := or_default (form_voice req) (js "alloy") in
      let instructions :=
        or_default (form_instructions req) (js "Speak in a neutral tone.") in
      let timeout_advice :=
        js "The request to generate speech timed out. Try with a smaller text file." in
      match readFile h file_path with
      | inr _ =>
          (mkResponse 400
             (ErrorBody
                (js "Could not read the uploaded file. Make sure it contains valid text.")
                (js "FILE_READ_ERROR") None),
           h)
      | inl document =>
          if negb (truthy_string (trim document)) then
            (mkResponse 400
               (ErrorBody (js "The uploaded file is empty or contains no text.")
                  (js "EMPTY_FILE") None),
             h)
          else
            match new_SpeechGenerator with
            | Throw e => (error_response timeout_advice (ThrownError e), h)
            | Return _ =>
                match generateSpeechFromDocument axios_post TextDecoder_decode
                        path_join writeFileSync
                        document generatedDir voice instructions h
                with
                | (Throw e, h') =>
                    (error_response timeout_advice (ThrownError e), h')
                | (Return generatedFiles, h') =>
                    match unlink h' file_path with
                    | Some e =>
                        (error_response timeout_advice (ThrownSystem e), h')
                    | None =>
                        if (length generatedFiles =? 0)%nat
                        then (no_files_generated, h')
                        else
                          (mkResponse 200
                             (SpeechBody (js "Speech generation complete")
                                (map (fun file =>
                                        js "/generated/" ++ path_basename file)
                                   generatedFiles)
                                (length generatedFiles) voice),
                           h')
                    end
                end
            end
      end
  end.

End Handlers.

End Server.
Import Server.

(** ** The route [POST /process] *)

Module Route.

(** The error that [upload.single('file')] passes on when the upload fails:
    whether it is a [multer.MulterError], its [code] and its [message]. *)
Record upload_error : Type := mkUploadError {
  is_MulterError : bool;
  upload_code : option jsstring;
  upload_message : jsstring }.

(** What the upload stage does with a request: it fails with an error, or
    it lets the request through, with [req.file] set when a file was sent. *)
Inductive upload_outcome : Type :=
  | UploadFailed (err : upload_error)
  | UploadPassed (req : file_request).

(** [handleMulterError], the error handler of the route, on the error of
    the upload stage.  Its last line, [next()], is for a falsy [err], which
    an error handler never receives. *)
Definition handleMulterError (err : upload_error) : http_response :=
  if is_MulterError err && code_is (upload_code err) (js "LIMIT_FILE_SIZE")
  then mkResponse 400
         (ErrorBody (js "File is too large. Maximum size is 10MB.")
            (js "FILE_TOO_LARGE") None)
  else mkResponse 400
         (ErrorBody (upload_message err) (js "INVALID_FILE") None).

Section Stages.

Variable axios_post : history -> payload -> axios_outcome.
Variable TextDecoder_decode : buffer -> completion jsstring.
Variable path_join : jsstring -> jsstring -> jsstring.
Variable writeFileSync : history -> jsstring -> buffer -> option js_error.
Variable path_basename : jsstring -> jsstring.
Variable readFile : history -> jsstring -> jsstring + system_error.
Variable unlink : history -> jsstring -> option system_error.
Variable apiKey : jsstring.
Variable generatedDir : jsstring.
Variable development : bool.

(** The three stages of the route: the upload, the handler of its errors,
    and the handler of the request. *)
Definition process_route (upload : upload_outcome) (h : history)
  : http_response * history :=
  match upload with
  | UploadFailed err => (handleMulterError err, h)
  | UploadPassed req =>
      process_file axios_post TextDecoder_decode path_join writeFileSync
        path_basename readFile unlink apiKey generatedDir development req h
  end.

End Stages.

End Route.
Import Route.

(** ** A sample environment *)

(** Concrete answers of the outside, used to run the handlers and the
    pipeline on examples. *)
Module Sample.

Definition remote_ok (_ : history) (_ : payload) : axios_outcome :=
  Fulfilled 200 [].

Definition remote_down (_ : history) (_ : payload) : axios_outcome :=
  Rejected (WithResponse 429 None).

Definition decode (_ : buffer) : completion jsstring := Return [].

Definition join_posix (dir name : jsstring) : jsstring :=
  dir ++ js "/" ++ name.

Definition disk (_ : history) (_ : jsstring) (_ : buffer) : option js_error :=
  None.

(** A disk on which every write fails. *)
Definition disk_full (_ : history) (_ : jsstring) (_ : buffer)
  : option js_error :=
  Some (Error (js "ENOSPC: no space left on device, write")).

(** A document of 2500 letters, which is cut into three segments. *)
Definition three_segments : jsstring := repeat 97%N 2500.

Definition same (s : jsstring) : jsstring := s.

Definition there (_ : history) (_ : jsstring) : bool := true.

Definition mkdir (_ : history) (_ : jsstring) : option system_error := None.

Definition read (_ : history) (_ : jsstring) : jsstring + system_error :=
  inl (js "hello").

Definition busy (_ : history) (_ : jsstring) : option system_error :=
  Some (mkSystemError (js "EBUSY: resource busy or locked") (Some (js "EBUSY"))).

Definition hello : text_request :=
  mkTextRequest (JString (js "hello")) None None (Some (js "s1")).

Definition nothing : text_request := mkTextRequest JAbsent None None None.

Definition upload : file_request :=
  mkFileRequest (Some (js "/tmp/uploads/f")) None None.

End Sample.

(** ** Further vocabulary *)

(** The texts [/process-text] accepts: a string with a character that is
    not white space, and of at most 5000 code units once it is trimmed. *)
Definition acceptable_text (v : json_value) : Prop :=
  exists t, v = JString t /\ blank t = false /\
            (length (trim t) <= 5000)%nat.

(** An upload [/process] goes on with: there is a file, it can be read, and
    it has a character that is not white space. *)
Definition usable_upload (readFile : history -> jsstring -> jsstring + system_error)
    (req : file_request) (h : history) : Prop :=
  match uploaded req with
  | None => False
  | Some file_path =>
      match readFile h file_path with
      | inl document => blank document = false
      | inr _ => False
      end
  end.

(** A request to [/process] that gets as far as the run: its upload went
    through and is usable. *)
Definition usable_request
    (readFile : history -> jsstring -> jsstring + system_error)
    (upload : upload_outcome) (h : history) : Prop :=
  match upload with
  | UploadFailed _ => False
  | UploadPassed req => usable_upload readFile req h
  end.

(** The statuses the handlers answer with. *)
Definition handler_statuses : list Z := [200; 400; 500; 502; 504].

(** A text in which some dot is directly followed by a word character. *)
Fixpoint dot_before_word (s : jsstring) : bool :=
  match s with
  | c :: s' =>
      ((c =? 46)%N && word_at (hd_error s')) || dot_before_word s'
  | [] => false
  end.

(** An expression that can only match where a dot is directly followed by
    a word character: it has a dot followed by a word character, or by a
    word boundary. *)
Fixpoint needs_dot_before_word (r : list atom) : bool :=
  match r with
  | Char c :: r' =>
      ((c =? 46)%N &&
       match r' with
       | Char w :: _ => is_word_char w
       | WordBoundary :: _ => true
       | _ => false
       end) || needs_dot_before_word r'
  | _ :: r' => needs_dot_before_word r'
  | [] => false
  end.

(** The error codes [generateSpeech] can throw. *)
Definition client_error_codes : list jsstring :=
  [js "OPENAI_TIMEOUT"; js "RATE_LIMIT_EXCEEDED"; js "API_ERROR";
   js "REQUEST_TIMEOUT"; js "NO_RESPONSE"; js "REQUEST_SETUP_ERROR"].

(** The failures the [catch] block lets through to another attempt while
    attempts remain: a 5xx answer other than 504, no answer at all unless
    the client aborted, and a failure to set the request up. *)
Definition retryable (error : axios_error) : bool :=
  match error with
  | WithResponse status _ =>
      (500 <=? status) && (status <? 600) && negb (status =? 504)
  | WithRequest (Some code) _ => negb (string_eqb code (js "ECONNABORTED"))
  | WithRequest None _ => true
  | Setup _ => true
  end.

(** * Properties of [splitDocument] *)

Section Chunker.

Local Abbreviation len s := (Z.of_nat (length s)).

Lemma truthy_trimStart (s : jsstring) :
  truthy_string (trimStart s) = negb (blank s).
Proof.
  induction s as [|c s IH]; simpl; [reflexivity|].
  destruct (is_white_space c) eqn:Hc; simpl; [exact IH | reflexivity].
Qed.

Lemma blank_trimStart (s : jsstring) : blank (trimStart s) = blank s.
Proof.
  induction s as [|c s IH]; simpl; [reflexivity|].
  destruct (is_white_space c) eqn:Hc; simpl; [exact IH | now rewrite Hc].
Qed.

Lemma blank_rev (s : jsstring) : blank (rev s) = blank s.
Proof.
  unfold blank. induction s as [|c s IH]; simpl; [reflexivity|].
  rewrite forallb_app, IH. simpl. rewrite andb_true_r. apply andb_comm.
Qed.

Lemma truthy_rev (s : jsstring) : truthy_string (rev s) = truthy_string s.
Proof.
  destruct s as [|c s]; simpl; [reflexivity|].
  destruct (rev s ++ [c]) eqn:E; [|reflexivity].
  now destruct (app_cons_not_nil _ _ _ (eq_sym E)).
Qed.

(** [!text.trim()] is the test for a blank text. *)
Lemma truthy_trim (s : jsstring) : truthy_string (trim s) = negb (blank s).
Proof.
  unfold trim, trimEnd.
  now rewrite truthy_rev, truthy_trimStart, blank_rev, blank_trimStart.
Qed.

(** Inside the loop a slice is a prefix of the rest of the text. *)
Lemma slice_chunk (text : jsstring) (i L : Z) :
  0 <= i < len text -> 0 < L ->
  slice text i (i + L) = firstn (Z.to_nat L) (skipn (Z.to_nat i) text).
Proof.
  intros Hi HL. unfold slice, relative_index.
  destruct (Z.ltb_spec i 0); [lia|].
  destruct (Z.ltb_spec (i + L) 0); [lia|].
  rewrite (Z.min_l i) by lia.
  destruct (Z.le_ge_cases (i + L) (len text)) as [Hle|Hge].
  - rewrite (Z.min_l (i + L)) by lia. f_equal. lia.
  - rewrite (Z.min_r (i + L)) by lia.
    rewrite !firstn_all2; [reflexivity| |]; rewrite length_skipn; lia.
Qed.

Lemma chunk_loop_concat (text : jsstring) (L : positive) (i : Z)
    (acc : list jsstring) :
  0 <= i ->
  concat (chunk_loop text L i acc) = concat acc ++ skipn (Z.to_nat i) text.
Proof.
  funelim (chunk_loop text L i acc); intros Hi.
  - match goal with IH : _ -> concat _ = _ |- _ => rewrite IH by lia end.
    rewrite concat_app, <- app_assoc. f_equal. simpl. rewrite app_nil_r.
    rewrite slice_chunk by lia.
    replace (Z.to_nat (i + Z.pos chunkSize))
      with (Z.to_nat (Z.pos chunkSize) + Z.to_nat i)%nat by lia.
    rewrite <- skipn_skipn. apply firstn_skipn.
  - rewrite skipn_all2 by lia. now rewrite app_nil_r.
Qed.

Lemma chunk_loop_bound (text : jsstring) (L : positive) (i : Z)
    (acc : list jsstring) :
  0 <= i ->
  Forall (fun c => len c <= Z.pos L) acc ->
  Forall (fun c => len c <= Z.pos L) (chunk_loop text L i acc).
Proof.
  funelim (chunk_loop text L i acc); intros Hi Hacc; [|exact Hacc].
  match goal with IH : _ -> _ -> Forall _ _ |- _ => apply IH; [lia|] end.
  apply Forall_app. split; [exact Hacc|].
  constructor; [|constructor].
  rewrite slice_chunk by lia.
  pose proof (firstn_le_length (Z.to_nat (Z.pos chunkSize))
                (skipn (Z.to_nat i) text)). lia.
Qed.

(** [ceil_div a b] is the least [n] with [a <= n * b]. *)
Lemma ceil_div_spec (a b : Z) :
  0 < b -> (ceil_div a b - 1) * b < a <= ceil_div a b * b.
Proof.
  intros Hb. unfold ceil_div.
  pose proof (Z.div_mod (- a) b) as Hdiv.
  pose proof (Z.mod_pos_bound (- a) b Hb) as Hmod. nia.
Qed.

Lemma ceil_div_step (x L : Z) :
  0 < x -> 0 < L -> ceil_div x L = 1 + ceil_div (Z.max (x - L) 0) L.
Proof.
  intros Hx HL. unfold ceil_div.
  destruct (Z.le_gt_cases L x) as [Hle|Hgt].
  - rewrite Z.max_l by lia.
    replace (- x) with (- (x - L) + (-1) * L) by lia.
    rewrite Z.div_add by lia. lia.
  - rewrite Z.max_r by lia.
    replace (- x) with ((L - x) + (-1) * L) by lia.
    rewrite Z.div_add by lia. rewrite Z.div_small by lia.
    change (- 0) with 0. rewrite Z.div_0_l by lia. lia.
Qed.

Lemma chunk_loop_length (text : jsstring) (L : positive) (i : Z)
    (acc : list jsstring) :
  0 <= i ->
  len (chunk_loop text L i acc)
  = len acc + ceil_div (Z.max (len text - i) 0) (Z.pos L).
Proof.
  funelim (chunk_loop text L i acc); intros Hi.
  - match goal with IH : _ -> len _ = _ |- _ => rewrite IH by lia end.
    rewrite length_app. simpl length.
    rewrite (Z.max_l (len text - i)) by lia.
    rewrite (ceil_div_step (x := len text - i) (L := Z.pos chunkSize)) by lia.
    replace (len text - (i + Z.pos chunkSize))
      with (len text - i - Z.pos chunkSize) by lia.
    destruct (Z.le_gt_cases (Z.pos chunkSize) (len text - i)).
    + rewrite !Z.max_l by lia. lia.
    + rewrite !Z.max_r by lia. lia.
  - rewrite Z.max_r by lia. unfold ceil_div. simpl. lia.
Qed.

(** The guard of [splitDocument] on an integer. *)
Lemma guard_of_Z (z : Z) :
  negb (Number_isInteger (of_Z z)) || num_le (of_Z z) (of_Z 0) = (z <=? 0).
Proof.
  unfold of_Z, Number_isInteger, num_le.
  rewrite Qfloor_Z.
  replace (Qeq_bool (inject_Z z) (inject_Z z)) with true
    by (symmetry; apply Qeq_bool_iff; reflexivity).
  simpl. unfold Qle_bool. simpl. now rewrite Z.mul_1_r.
Qed.

Lemma splitDocument_blank (text : jsstring) (L : number) :
  blank text = true -> splitDocument text L = Return [].
Proof.
  intros Hb. unfold splitDocument. now rewrite truthy_trim, Hb.
Qed.

Lemma splitDocument_chunks (text : jsstring) (z : Z) :
  blank text = false -> 0 < z ->
  splitDocument text (of_Z z)
  = Return (chunk_loop text (Z.to_pos z) 0 []).
Proof.
  intros Hb Hz. unfold splitDocument.
  rewrite truthy_trim, Hb, guard_of_Z.
  destruct (Z.leb_spec z 0); [lia|]. cbn [negb].
  unfold integral_part, of_Z. now rewrite Qfloor_Z.
Qed.

(** The result does not depend on how the value of [chunkSize] is written
    as a fraction. *)
Lemma splitDocument_num_eq (text : jsstring) (L : number) (z : Z) :
  num_eq L (of_Z z) -> splitDocument text L = splitDocument text (of_Z z).
Proof.
  destruct L as [q| | |]; simpl; try contradiction. intros Hq.
  assert (Hfl : Qfloor q = z) by (rewrite Hq; apply Qfloor_Z).
  unfold splitDocument, of_Z, Number_isInteger, num_le, integral_part.
  rewrite Hfl, Qfloor_Z.
  replace (Qeq_bool q (inject_Z z)) with true
    by (symmetry; apply Qeq_bool_iff; exact Hq).
  replace (Qeq_bool (inject_Z z) (inject_Z z)) with true
    by (symmetry; apply Qeq_bool_iff; reflexivity).
  replace (Qle_bool q (inject_Z 0)) with (Qle_bool (inject_Z z) (inject_Z 0));
    [reflexivity|].
  apply eq_true_iff_eq. rewrite !Qle_bool_iff. now rewrite Hq.
Qed.

(** A number that passes the guard is a positive integer. *)
Lemma guard_rejects (L : number) :
  ~ is_positive_integer L ->
  negb (Number_isInteger L) || num_le L (of_Z 0) = true.
Proof.
  intros Hnot. destruct L as [q| | |]; try reflexivity.
  unfold Number_isInteger, num_le, of_Z.
  destruct (Qeq_bool q (inject_Z (Qfloor q))) eqn:Hint; [|reflexivity].
  destruct (Qle_bool q (inject_Z 0)) eqn:Hle; [reflexivity|].
  exfalso. apply Hnot. exists (Qfloor q).
  apply Qeq_bool_iff in Hint. split; [|exact Hint].
  destruct (Z.lt_ge_cases 0 (Qfloor q)) as [Hpos|Hneg]; [exact Hpos|].
  assert (Hq : (q <= inject_Z 0)%Q).
  { rewrite Hint. rewrite <- Zle_Qle. exact Hneg. }
  apply Qle_bool_iff in Hq. congruence.
Qed.

(** Past the guard, the step of the loop is the chunk size itself. *)
Lemma guard_passed (L : number) :
  negb (Number_isInteger L) || num_le L (of_Z 0) = false ->
  num_eq L (of_Z (Z.pos (Z.to_pos (integral_part L)))).
Proof.
  intros Hguard.
  assert (Hpos : is_positive_integer L).
  { destruct (orb_false_elim _ _ Hguard) as [Hint Hle].
    destruct L as [q| | |]; try discriminate.
    simpl in Hint, Hle. apply negb_false_iff, Qeq_bool_iff in Hint.
    exists (Qfloor q). split; [|exact Hint].
    destruct (Z.lt_ge_cases 0 (Qfloor q)) as [Hp|Hn]; [exact Hp|].
    assert (Hq : (q <= inject_Z 0)%Q)
      by (rewrite Hint; rewrite <- Zle_Qle; exact Hn).
    apply Qle_bool_iff in Hq. unfold of_Z in Hle. congruence. }
  destruct Hpos as (z & Hz & Heq).
  destruct L as [q| | |]; try contradiction.
  unfold num_eq, of_Z, integral_part in *.
  assert (Hfl : Qfloor q = z) by (rewrite Heq; apply Qfloor_Z).
  rewrite Hfl. replace (Z.pos (Z.to_pos z)) with z by lia. exact Heq.
Qed.

Lemma not_positive_integer_of_Z (z : Z) :
  z <= 0 -> ~ is_positive_integer (of_Z z).
Proof.
  intros Hz [y [Hy Heq]]. unfold num_eq, of_Z, Qeq in Heq.
  simpl in Heq. lia.
Qed.

End Chunker.

(** ** The claims on [splitDocument] *)




(** C5, as stated, fails: with the empty text a chunk size of 0 is not
    rejected, an empty result is returned. *)
Lemma blank_text_hides_bad_chunkSize :
  ~ is_positive_integer (of_Z 0) /\
  splitDocument (js "") (of_Z 0) = Return [].
Proof.
  split; [apply not_positive_integer_of_Z; lia | reflexivity].
Qed.

(** C5, amended: whenever [L] is not a positive integer, [splitDocument T L]
    throws the error "chunkSize must be a positive integer.", the
    InvalidArgument of the specification, for every text [T] that has a
    character that is not white space; for a blank [T] it returns the empty
    sequence. *)
Theorem splitDocument_rejects_chunkSize (T : jsstring) (L : number) :
  ~ is_positive_integer L ->
  let e := Error (js "chunkSize must be a positive integer.") in
  splitDocument T L = (if blank T then Return [] else Throw e) /\
  kind_of e = Some InvalidArgument.
Proof.
  intros HL e. split; [|reflexivity].
  unfold splitDocument. rewrite truthy_trim.
  destruct (blank T); [reflexivity|].
  cbn [negb]. now rewrite (guard_rejects HL).
Qed.

Lemma splitDocument_rejects_chunkSize_witness :
  splitDocument (js "some text") (of_Z 0)
  = Throw (Error (js "chunkSize must be a positive integer.")) /\
  splitDocument (js "some text") (of_Z (-5))
  = Throw (Error (js "chunkSize must be a positive integer.")).
Proof.
  split.
  - apply (@splitDocument_rejects_chunkSize (js "some text") (of_Z 0)).
    apply not_positive_integer_of_Z; lia.
  - apply (@splitDocument_rejects_chunkSize (js "some text") (of_Z (-5))).
    apply not_positive_integer_of_Z; lia.
Defined.

(** C7, as stated, fails: a text of two spaces is not empty, yet it is split
    into no chunk, not into ceil(2 / 1) = 2. *)
Lemma chunk_count_fails_on_blank_text :
  js "  " <> [] /\
  exists chunks,
    splitDocument (js "  ") (of_Z 1) = Return chunks /\
    Z.of_nat (length chunks) <> ceil_div (Z.of_nat (length (js "  "))) 1.
Proof.
  split; [discriminate|]. exists []. split; [reflexivity | discriminate].
Qed.

(** C7, amended: for every text [T] and every positive integer [L], every
    chunk of [splitDocument T L] has at most [L] code units; there are
    ceil(len(T) / L) chunks when [T] has a character that is not white space,
    and none when [T] is blank. *)
Theorem splitDocument_bound_and_count (T : jsstring) (L : number) (z : Z) :
  0 < z -> num_eq L (of_Z z) ->
  exists chunks,
    splitDocument T L = Return chunks /\
    Forall (fun c => Z.of_nat (length c) <= z) chunks /\
    Z.of_nat (length chunks)
    = if blank T then 0 else ceil_div (Z.of_nat (length T)) z.
Proof.
  intros Hz HL. rewrite (splitDocument_num_eq T L z HL).
  destruct (blank T) eqn:Hb.
  { exists []. rewrite splitDocument_blank by exact Hb.
    repeat split. constructor. }
  eexists. split; [now apply splitDocument_chunks|]. split.
  - apply Forall_impl with (P := fun c => Z.of_nat (length c) <= Z.pos (Z.to_pos z));
      [intros c Hc; lia|].
    apply chunk_loop_bound; [lia | constructor].
  - rewrite chunk_loop_length by lia.
    rewrite Z.sub_0_r, Z.max_l by lia.
    simpl length. replace (Z.pos (Z.to_pos z)) with z by lia. lia.
Qed.

Lemma splitDocument_bound_and_count_witness :
  exists chunks,
    splitDocument (js "hello world") (of_Z 4) = Return chunks /\
    Forall (fun c => Z.of_nat (length c) <= 4) chunks /\
    Z.of_nat (length chunks) = ceil_div 11 4.
Proof.
  apply (@splitDocument_bound_and_count (js "hello world") (of_Z 4) 4);
    [lia | reflexivity].
Defined.

(** * Properties of [generateSpeech] *)

Section ClientProperties.

Variable axios_post : history -> payload -> axios_outcome.
Variable TextDecoder_decode : buffer -> completion jsstring.

Local Abbreviation retry := (retry_loop axios_post TextDecoder_decode).
Local Abbreviation handler := (on_error TextDecoder_decode).

(** One iteration of the loop. *)
Lemma retry_loop_unfold (p : payload) (attempt : Z) (h : history) :
  retry p attempt h =
  if attempt <? maxRetries then
    match axios_post h p with
    | Fulfilled status data =>
        (Return data, h ++ [EvPost p (Fulfilled status data)])
    | Rejected error =>
        match handler (attempt + 1) error with
        | Some e => (Throw e, h ++ [EvPost p (Rejected error)])
        | None =>
            retry p (attempt + 1)
              (h ++ [EvPost p (Rejected error); EvSleep (1000 * (attempt + 1))])
        end
    end
  else (Throw (OpenAIError (js "Unexpected error in speech generation.")
                 500 (js "UNEXPECTED_ERROR")), h).
Proof.
  simp retry_loop.
  destruct (Z_lt_dec attempt maxRetries) as [Hlt|Hge]; simpl.
  - destruct (Z.ltb_spec attempt maxRetries); [|lia].
    destruct (axios_post h p) as [status data|error]; simpl; [reflexivity|].
    destruct (handler (attempt + 1) error); reflexivity.
  - destruct (Z.ltb_spec attempt maxRetries); [lia|reflexivity].
Qed.

(** A transient status is retried while attempts remain, and raised as
    [API_ERROR] on the last one. *)
Lemma on_error_transient (attempt status : Z) (data : option buffer) :
  500 <= status < 600 -> status <> 504 ->
  handler attempt (WithResponse status data) =
  if maxRetries <=? attempt then
    Some (OpenAIError
            (js "OpenAI API error: " ++
             match data with
             | Some d =>
                 match TextDecoder_decode d with
                 | Return decoded => decoded
                 | Throw _ => js "Unknown error"
                 end
             | None => js "Unknown error"
             end) status (js "API_ERROR"))
  else None.
Proof.
  intros Hs H504. unfold on_error.
  destruct (Z.eqb_spec status 504); [lia|].
  destruct (Z.eqb_spec status 429); [lia|].
  destruct (Z.leb_spec 500 status); [|lia].
  destruct (Z.ltb_spec status 600); [|lia].
  reflexivity.
Qed.

Lemma kind_of_API_ERROR (message : jsstring) (status : Z) :
  500 <= status < 600 ->
  kind_of (OpenAIError message status (js "API_ERROR")) = Some UpstreamError.
Proof.
  intros Hs. unfold kind_of.
  destruct (Z.leb_spec 500 status); [|lia].
  destruct (Z.ltb_spec status 600); [|lia].
  reflexivity.
Qed.

Lemma on_error_last (attempt : Z) (error : axios_error) :
  maxRetries <= attempt -> handler attempt error <> None.
Proof.
  intros Hlast. unfold on_error.
  destruct (Z.leb_spec maxRetries attempt); [|lia].
  destruct error as [status data|code message|message].
  - destruct (status =? 504); [discriminate|].
    destruct (status =? 429); [discriminate|].
    rewrite orb_true_r. discriminate.
  - destruct code as [c|]; [destruct (string_eqb c _)|]; discriminate.
  - discriminate.
Qed.

(** A call appends to the history a sequence of attempts for its request;
    in particular the loop never runs out of attempts without a result. *)
Lemma retry_loop_attempts (p : payload) (n : nat) :
  forall attempt h,
    attempt < maxRetries -> Z.to_nat (maxRetries - attempt) = n ->
    exists evs,
      snd (retry p attempt h) = h ++ evs /\
      attempts p evs (audio_of (fst (retry p attempt h))).
Proof.
  induction n as [|n IH]; intros attempt h Hlt Hn; [lia|].
  rewrite retry_loop_unfold.
  destruct (Z.ltb_spec attempt maxRetries); [|lia].
  destruct (axios_post h p) as [status data|error].
  - eexists. split; [reflexivity | constructor].
  - destruct (handler (attempt + 1) error) as [e|] eqn:He.
    + eexists. split; [reflexivity | constructor].
    + destruct (Z.lt_ge_cases (attempt + 1) maxRetries) as [Hnext|Hlast];
        [|now destruct (@on_error_last (attempt + 1) error)].
      destruct (IH (attempt + 1)
                  (h ++ [EvPost p (Rejected error);
                         EvSleep (1000 * (attempt + 1))]) Hnext)
        as (evs & Hevs & Hatt); [lia|].
      exists (EvPost p (Rejected error) :: EvSleep (1000 * (attempt + 1)) :: evs).
      split.
      * rewrite Hevs, <- app_assoc. reflexivity.
      * now constructor.
Qed.

End ClientProperties.

Lemma generateSpeech_attempts
    (axios_post : history -> payload -> axios_outcome)
    (TextDecoder_decode : buffer -> completion jsstring)
    (text voice instructions : jsstring) (voiceOptions : VoiceOptions)
    (h : history) :
  let run := generateSpeech axios_post TextDecoder_decode
               text voice instructions voiceOptions h in
  exists evs,
    snd run = h ++ evs /\
    attempts (request text voice instructions voiceOptions) evs
      (audio_of (fst run)).
Proof.
  unfold generateSpeech.
  now apply (@retry_loop_attempts axios_post TextDecoder_decode _ 3 0 h).
Qed.

(** ** The claims on [generateSpeech] *)

Section ClientClaims.

Variable axios_post : history -> payload -> axios_outcome.
Variable TextDecoder_decode : buffer -> completion jsstring.

(** C2: when every request is answered with a 5xx status other than 504,
    [generateSpeech] sends exactly three requests, waits 1000 ms before the
    second and 2000 ms before the third, and then throws an [OpenAIError]
    carrying the last status and the code [API_ERROR], which is the
    UpstreamError of the specification. *)
Theorem generateSpeech_retries_transient
    (text voice instructions : jsstring) (voiceOptions : VoiceOptions)
    (h : history) :
  (forall h' p, exists status data,
      axios_post h' p = Rejected (WithResponse status data) /\
      500 <= status < 600 /\ status <> 504) ->
  let p := request text voice instructions voiceOptions in
  exists r1 r2 r3 message status,
    generateSpeech axios_post TextDecoder_decode
      text voice instructions voiceOptions h
    = (Throw (OpenAIError message status (js "API_ERROR")),
       h ++ [EvPost p r1; EvSleep 1000; EvPost p r2; EvSleep 2000; EvPost p r3])
    /\ 500 <= status < 600
    /\ kind_of (OpenAIError message status (js "API_ERROR")) = Some UpstreamError.
Proof.
  intros Hremote p. unfold generateSpeech. fold p.
  rewrite retry_loop_unfold. simpl (0 <? maxRetries).
  destruct (Hremote h p) as (s1 & d1 & E1 & Hs1 & N1). rewrite E1.
  rewrite on_error_transient by assumption. simpl (maxRetries <=? 0 + 1).
  cbv iota. rewrite retry_loop_unfold. simpl (0 + 1 <? maxRetries). cbv iota.
  match goal with |- context [axios_post ?h1 p] =>
    destruct (Hremote h1 p) as (s2 & d2 & E2 & Hs2 & N2); rewrite E2 end.
  rewrite on_error_transient by assumption. simpl (maxRetries <=? 0 + 1 + 1).
  cbv iota. rewrite retry_loop_unfold. simpl (0 + 1 + 1 <? maxRetries). cbv iota.
  match goal with |- context [axios_post ?h2 p] =>
    destruct (Hremote h2 p) as (s3 & d3 & E3 & Hs3 & N3); rewrite E3 end.
  rewrite on_error_transient by assumption.
  simpl (maxRetries <=? 0 + 1 + 1 + 1). cbv iota.
  do 5 eexists. split; [|split].
  - rewrite <- !app_assoc. simpl. reflexivity.
  - exact Hs3.
  - now apply kind_of_API_ERROR.
Qed.

(** C6: when the remote answers the first request with 429,
    [generateSpeech] sends that one request only, waits for nothing, and
    throws the [OpenAIError] with status 429 and code [RATE_LIMIT_EXCEEDED],
    which is the RateLimited of the specification. *)
Theorem generateSpeech_rate_limited
    (text voice instructions : jsstring) (voiceOptions : VoiceOptions)
    (h : history) (data : option buffer) :
  let p := request text voice instructions voiceOptions in
  let e := OpenAIError
             (js "OpenAI API rate limit exceeded. Please try again after some time.")
             429 (js "RATE_LIMIT_EXCEEDED") in
  axios_post h p = Rejected (WithResponse 429 data) ->
  generateSpeech axios_post TextDecoder_decode
    text voice instructions voiceOptions h
  = (Throw e, h ++ [EvPost p (Rejected (WithResponse 429 data))])
  /\ kind_of e = Some RateLimited.
Proof.
  intros p e Hremote. split; [|reflexivity].
  unfold generateSpeech. fold p.
  rewrite retry_loop_unfold. simpl (0 <? maxRetries). cbv iota.
  rewrite Hremote. reflexivity.
Qed.

(** C3, amended: when every attempt fails while the request is set up,
    [generateSpeech] retries: it makes three attempts, waits 1000 ms before
    the second and 2000 ms before the third, and throws the [OpenAIError]
    with code [REQUEST_SETUP_ERROR] (RequestSetupError) only after the
    third. *)
Theorem generateSpeech_retries_setup_error
    (text voice instructions : jsstring) (voiceOptions : VoiceOptions)
    (h : history) :
  (forall h' p, exists message, axios_post h' p = Rejected (Setup message)) ->
  let p := request text voice instructions voiceOptions in
  exists m1 m2 m3,
    let e := OpenAIError (js "Request setup error: " ++ m3) 500
               (js "REQUEST_SETUP_ERROR") in
    generateSpeech axios_post TextDecoder_decode
      text voice instructions voiceOptions h
    = (Throw e,
       h ++ [EvPost p (Rejected (Setup m1)); EvSleep 1000;
             EvPost p (Rejected (Setup m2)); EvSleep 2000;
             EvPost p (Rejected (Setup m3))])
    /\ kind_of e = Some RequestSetupError.
Proof.
  intros Hremote p. unfold generateSpeech. fold p.
  rewrite retry_loop_unfold. simpl (0 <? maxRetries). cbv iota.
  destruct (Hremote h p) as (m1 & E1). rewrite E1.
  simpl (on_error _ _ _). cbv iota.
  rewrite retry_loop_unfold. simpl (0 + 1 <? maxRetries). cbv iota.
  match goal with |- context [axios_post ?h1 p] =>
    destruct (Hremote h1 p) as (m2 & E2); rewrite E2 end.
  simpl (on_error _ _ _). cbv iota.
  rewrite retry_loop_unfold. simpl (0 + 1 + 1 <? maxRetries). cbv iota.
  match goal with |- context [axios_post ?h2 p] =>
    destruct (Hremote h2 p) as (m3 & E3); rewrite E3 end.
  exists m1, m2, m3. split; [|reflexivity].
  simpl (on_error _ _ _). cbv iota.
  rewrite <- !app_assoc. reflexivity.
Qed.

End ClientClaims.

Lemma generateSpeech_retries_transient_witness :
  let remote := fun (_ : history) (_ : payload) =>
                  Rejected (WithResponse 503 None) in
  let p := request (js "hello") (js "alloy") (js "Speak in a neutral tone.")
             no_options in
  exists r1 r2 r3 message status,
    generateSpeech remote (fun _ => Return [])
      (js "hello") (js "alloy") (js "Speak in a neutral tone.") no_options []
    = (Throw (OpenAIError message status (js "API_ERROR")),
       [] ++ [EvPost p r1; EvSleep 1000; EvPost p r2; EvSleep 2000; EvPost p r3])
    /\ 500 <= status < 600
    /\ kind_of (OpenAIError message status (js "API_ERROR")) = Some UpstreamError.
Proof.
  intros remote p.
  apply (@generateSpeech_retries_transient remote (fun _ => Return [])
           (js "hello") (js "alloy") (js "Speak in a neutral tone.")
           no_options []).
  intros h' q. exists 503, None. repeat split; lia.
Defined.

Lemma generateSpeech_rate_limited_witness :
  let remote := fun (_ : history) (_ : payload) =>
                  Rejected (WithResponse 429 None) in
  let p := request (js "hello") (js "alloy") (js "Speak in a neutral tone.")
             no_options in
  let e := OpenAIError
             (js "OpenAI API rate limit exceeded. Please try again after some time.")
             429 (js "RATE_LIMIT_EXCEEDED") in
  generateSpeech remote (fun _ => Return [])
    (js "hello") (js "alloy") (js "Speak in a neutral tone.") no_options []
  = (Throw e, [] ++ [EvPost p (Rejected (WithResponse 429 None))])
  /\ kind_of e = Some RateLimited.
Proof.
  intros remote p e.
  apply (@generateSpeech_rate_limited remote (fun _ => Return [])
           (js "hello") (js "alloy") (js "Speak in a neutral tone.")
           no_options [] None).
  reflexivity.
Defined.

(** C3, as stated, fails: against a remote on which every request fails in
    its setup, [generateSpeech] sends three requests and waits twice before
    it gives up; it does not stop at the first failure. *)
Lemma setup_error_is_retried :
  let remote := fun (_ : history) (_ : payload) =>
                  Rejected (Setup (js "bad payload")) in
  let p := request (js "hello") (js "alloy") (js "Speak in a neutral tone.")
             no_options in
  let run := generateSpeech remote (fun _ => Return [])
               (js "hello") (js "alloy") (js "Speak in a neutral tone.")
               no_options [] in
  posts (snd run) = [p; p; p] /\ sleeps (snd run) = [1000; 2000].
Proof. split; reflexivity. Qed.

Lemma generateSpeech_retries_setup_error_witness :
  let remote := fun (_ : history) (_ : payload) =>
                  Rejected (Setup (js "bad payload")) in
  let p := request (js "hello") (js "alloy") (js "Speak in a neutral tone.")
             no_options in
  exists m1 m2 m3,
    let e := OpenAIError (js "Request setup error: " ++ m3) 500
               (js "REQUEST_SETUP_ERROR") in
    generateSpeech remote (fun _ => Return [])
      (js "hello") (js "alloy") (js "Speak in a neutral tone.") no_options []
    = (Throw e,
       [] ++ [EvPost p (Rejected (Setup m1)); EvSleep 1000;
              EvPost p (Rejected (Setup m2)); EvSleep 2000;
              EvPost p (Rejected (Setup m3))])
    /\ kind_of e = Some RequestSetupError.
Proof.
  intros remote p.
  apply (@generateSpeech_retries_setup_error remote (fun _ => Return [])
           (js "hello") (js "alloy") (js "Speak in a neutral tone.")
           no_options []).
  intros h' q. exists (js "bad payload"). reflexivity.
Defined.

(** ** The hints for pace and pitch *)

Section Hints.

Lemma above_is_truthy (x : number) (z : Z) :
  0 <= z -> num_gt x (of_Z z) = true -> truthy_number (Some x) = true.
Proof.
  intros Hz. destruct x as [q| | |]; simpl; try easy.
  intros Hgt. apply negb_true_iff in Hgt. apply negb_true_iff.
  destruct (Qeq_bool q 0) eqn:E; [|reflexivity].
  apply Qeq_bool_iff in E.
  assert (Hle : (q <= inject_Z z)%Q).
  { rewrite E. change 0%Q with (inject_Z 0). now rewrite <- Zle_Qle. }
  apply Qle_bool_iff in Hle. congruence.
Qed.

Lemma below_is_not_above (x y : number) :
  num_lt x y = true -> num_gt x y = false.
Proof.
  unfold num_lt.
  destruct x as [a| | |], y as [b| | |]; simpl; try easy.
  intros Hlt. apply negb_true_iff in Hlt. apply negb_false_iff.
  apply Qle_bool_iff. apply Qlt_le_weak. apply Qnot_le_lt.
  intros Hle. apply Qle_bool_iff in Hle. congruence.
Qed.

Lemma nonzero_is_truthy (x : number) (y : number) :
  num_lt x y = true -> ~ num_eq x (of_Z 0) -> truthy_number (Some x) = true.
Proof.
  unfold num_lt.
  destruct x as [q| | |], y as [b| | |]; simpl; try easy.
  all: intros _ Hnz; apply negb_true_iff;
    destruct (Qeq_bool q 0) eqn:E; [|reflexivity];
    apply Qeq_bool_iff in E; now destruct Hnz.
Qed.

Lemma negative_is_nonzero (x : number) :
  num_lt x (of_Z 0) = true -> ~ num_eq x (of_Z 0).
Proof.
  unfold num_lt. destruct x as [q| | |]; simpl; try easy.
  intros Hlt Heq. apply negb_true_iff in Hlt.
  assert (Hle : (inject_Z 0 <= q)%Q) by (rewrite Heq; apply Qle_refl).
  apply Qle_bool_iff in Hle. congruence.
Qed.

(** C9, as stated, fails: a speed of 0 is below the neutral speed 1, yet no
    hint on the pace is appended, the instructions are sent as they are. *)
Lemma speed_zero_gets_no_hint :
  num_lt (of_Z 0) (of_Z 1) = true /\
  formatInstructions (js "Speak in a neutral tone.")
    (mkVoiceOptions (Some (of_Z 0)) None None)
  = js "Speak in a neutral tone.".
Proof. split; reflexivity. Qed.

(** C9, amended: the hint appended to the instructions keeps the direction
    of the option: a speed above 1 gives "a faster pace", a speed below 1
    and other than 0 gives "a slower pace", a pitch above 0 gives "a higher
    pitch", and a pitch below 0 gives "a lower pitch"; a speed of 0 is
    handled as a speed that was not given. *)
Theorem hints_preserve_direction (instr : jsstring) (o : VoiceOptions) :
  (forall s, speed o = Some s -> num_gt s (of_Z 1) = true ->
     exists rest,
       formatInstructions instr o
       = instr ++ js " Speak at a faster pace." ++ rest) /\
  (forall s, speed o = Some s -> num_lt s (of_Z 1) = true ->
     ~ num_eq s (of_Z 0) ->
     exists rest,
       formatInstructions instr o
       = instr ++ js " Speak at a slower pace." ++ rest) /\
  (forall p, pitch o = Some p -> num_gt p (of_Z 0) = true ->
     exists before,
       formatInstructions instr o = before ++ js " Use a higher pitch.") /\
  (forall p, pitch o = Some p -> num_lt p (of_Z 0) = true ->
     exists before,
       formatInstructions instr o = before ++ js " Use a lower pitch.") /\
  (forall s, speed o = Some s -> num_eq s (of_Z 0) ->
     formatInstructions instr o
     = formatInstructions instr (mkVoiceOptions None (pitch o) (volume o))).
Proof.
  unfold formatInstructions. cbv zeta.
  split; [|split; [|split; [|split]]].
  - intros s Hs Hgt. rewrite Hs.
    change (opt_gt (Some s) (of_Z 1)) with (num_gt s (of_Z 1)).
    rewrite Hgt, (@above_is_truthy s 1) by (lia || assumption).
    destruct (truthy_number (pitch o)).
    + eexists. rewrite <- app_assoc. f_equal.
    + exists []. f_equal.
  - intros s Hs Hlt Hnz. rewrite Hs.
    change (opt_gt (Some s) (of_Z 1)) with (num_gt s (of_Z 1)).
    rewrite (@below_is_not_above _ _ Hlt), (@nonzero_is_truthy _ _ Hlt Hnz).
    destruct (truthy_number (pitch o)).
    + eexists. rewrite <- app_assoc. f_equal.
    + exists []. f_equal.
  - intros p Hp Hgt. rewrite Hp.
    change (opt_gt (Some p) (of_Z 0)) with (num_gt p (of_Z 0)).
    rewrite Hgt, (@above_is_truthy p 0) by (lia || assumption).
    match goal with |- exists _, ?X ++ _ = _ => exists X end. f_equal.
  - intros p Hp Hlt. rewrite Hp.
    change (opt_gt (Some p) (of_Z 0)) with (num_gt p (of_Z 0)).
    rewrite (@below_is_not_above _ _ Hlt).
    rewrite (@nonzero_is_truthy _ _ Hlt (@negative_is_nonzero _ Hlt)).
    match goal with |- exists _, ?X ++ _ = _ => exists X end. f_equal.
  - intros s Hs Hz. rewrite Hs. simpl pitch. simpl speed.
    destruct s as [q| | |]; simpl in Hz; try contradiction.
    apply Qeq_bool_iff in Hz. change (inject_Z 0) with 0%Q in Hz.
    cbn [truthy_number]. rewrite Hz. reflexivity.
Qed.

Lemma hints_preserve_direction_witness :
  let o := mkVoiceOptions (Some (Finite (3 # 2))) (Some (of_Z (-4))) None in
  (exists rest,
     formatInstructions (js "Speak in a neutral tone.") o
     = js "Speak in a neutral tone." ++ js " Speak at a faster pace." ++ rest) /\
  (exists before,
     formatInstructions (js "Speak in a neutral tone.") o
     = before ++ js " Use a lower pitch.").
Proof.
  intros o.
  destruct (hints_preserve_direction (js "Speak in a neutral tone.") o)
    as (Hfaster & _ & _ & Hlower & _).
  split.
  - apply (Hfaster (Finite (3 # 2))); reflexivity.
  - apply (Hlower (of_Z (-4))); reflexivity.
Defined.

End Hints.

(** * Properties of the orchestrator *)

Section GeneratorProperties.

Variable axios_post : history -> payload -> axios_outcome.
Variable TextDecoder_decode : buffer -> completion jsstring.
Variable path_join : jsstring -> jsstring -> jsstring.
Variable writeFileSync : history -> jsstring -> buffer -> option js_error.
Variables outputDir voice instructions : jsstring.

Local Abbreviation synth :=
  (generateSpeech axios_post TextDecoder_decode).
Local Abbreviation loop chunks :=
  (segment_loop axios_post TextDecoder_decode path_join writeFileSync
     chunks outputDir voice instructions).
Local Abbreviation file i := (chunk_path path_join outputDir i).
Local Abbreviation run_of chunks :=
  (fun (j : nat) (r : history * list jsstring) =>
     segment_run path_join outputDir voice instructions j (nth j chunks [])
       (fst r) (snd r)).

(** One iteration of the loop over the segments. *)
Lemma segment_loop_unfold (chunks : list jsstring) (i : nat)
    (filePaths : list jsstring) (h : history) :
  loop chunks i filePaths h =
  if (i <? length chunks)%nat then
    match synth (nth i chunks []) voice instructions no_options h with
    | (Throw _, h1) => loop chunks (S i) filePaths h1
    | (Return audioBuffer, h1) =>
        match writeFileSync h1 (file i) audioBuffer with
        | Some e =>
            loop chunks (S i) filePaths
              (h1 ++ [EvWrite (file i) audioBuffer (Some e)])
        | None =>
            loop chunks (S i) (filePaths ++ [forward_slashes (file i)])
              (h1 ++ [EvWrite (file i) audioBuffer None])
        end
    end
  else (filePaths, h).
Proof.
  simp segment_loop.
  destruct (lt_dec i (length chunks)) as [Hlt|Hge]; simpl.
  - destruct (Nat.ltb_spec i (length chunks)); [|lia].
    destruct (synth (nth i chunks []) voice instructions no_options h)
      as [[audio|e] h1]; simpl; [|reflexivity].
    destruct (writeFileSync h1 (file i) audio); reflexivity.
  - destruct (Nat.ltb_spec i (length chunks)); [lia|reflexivity].
Qed.

(** The loop handles the segments from [i] on one after the other, each
    with a run of its own, whatever the outcome of the ones before. *)
Lemma segment_loop_runs (chunks : list jsstring) (k : nat) :
  forall i filePaths h,
    (length chunks - i = k)%nat ->
    exists runs,
      loop chunks i filePaths h
      = (filePaths ++ concat (map snd runs), h ++ concat (map fst runs)) /\
      Forall2 (run_of chunks) (seq i k) runs.
Proof.
  induction k as [|k IH]; intros i filePaths h Hk; rewrite segment_loop_unfold.
  - destruct (Nat.ltb_spec i (length chunks)); [lia|].
    exists []. simpl. rewrite !app_nil_r. split; [reflexivity|constructor].
  - destruct (Nat.ltb_spec i (length chunks)); [|lia].
    destruct (generateSpeech_attempts axios_post TextDecoder_decode
                (nth i chunks []) voice instructions no_options h)
      as (evs & Hevs & Hatt).
    destruct (synth (nth i chunks []) voice instructions no_options h)
      as [[audio|e] h1]; simpl in Hevs, Hatt; subst h1.
    + destruct (writeFileSync (h ++ evs) (file i) audio) as [e|].
      * destruct (IH (S i) filePaths
                    (h ++ evs ++ [EvWrite (file i) audio (Some e)]))
          as (runs & Hrun & Hall); [lia|].
        exists ((evs ++ [EvWrite (file i) audio (Some e)], []) :: runs).
        split.
        -- rewrite <- app_assoc, Hrun. simpl. now rewrite <- !app_assoc.
        -- simpl. constructor; [|exact Hall]. now apply write_failed.
      * destruct (IH (S i) (filePaths ++ [forward_slashes (file i)])
                    (h ++ evs ++ [EvWrite (file i) audio None]))
          as (runs & Hrun & Hall); [lia|].
        exists ((evs ++ [EvWrite (file i) audio None],
                 [forward_slashes (file i)]) :: runs).
        split.
        -- rewrite <- app_assoc, Hrun. simpl. now rewrite <- !app_assoc.
        -- simpl. constructor; [|exact Hall]. now apply segment_persisted.
    + destruct (IH (S i) filePaths (h ++ evs)) as (runs & Hrun & Hall); [lia|].
      exists ((evs, []) :: runs). split.
      * rewrite Hrun. simpl. now rewrite <- !app_assoc.
      * simpl. constructor; [|exact Hall]. now apply synthesis_failed.
Qed.

(** No file is written while the client is at work. *)
Lemma attempts_persisted (p : payload) (evs : history) (r : option buffer) :
  attempts p evs r -> persisted evs = [].
Proof. induction 1; simpl; auto. Qed.

Lemma persisted_app (h1 h2 : history) :
  persisted (h1 ++ h2) = persisted h1 ++ persisted h2.
Proof. apply flat_map_app. Qed.

(** The segments that add a path are the ones whose file was written, and
    they come in the order of their indices. *)
Lemma runs_indices (chunks : list jsstring) (k : nat) :
  forall i runs,
    Forall2 (run_of chunks) (seq i k) runs ->
    exists idxs,
      concat (map snd runs) = map (fun j => forward_slashes (file j)) idxs /\
      persisted (concat (map fst runs)) = map (fun j => file j) idxs /\
      StronglySorted lt idxs /\
      Forall (fun j => i <= j < i + k)%nat idxs /\
      (length idxs <= k)%nat.
Proof.
  induction k as [|k IH]; intros i runs Hruns; simpl in Hruns.
  - inversion Hruns; subst. exists []. simpl. repeat split; auto; constructor.
  - inversion Hruns as [|j r js rs Hrun Hrest]; subst.
    destruct (IH (S i) rs Hrest) as (idxs & Hpaths & Hfiles & Hsort & Hrange & Hlen).
    assert (Hlater : Forall (fun j => i <= j < i + S k)%nat idxs).
    { eapply Forall_impl; [|exact Hrange]. simpl. intros; lia. }
    destruct r as [blk out]. simpl in Hrun. simpl map. simpl concat.
    rewrite persisted_app.
    inversion Hrun as [evs Hatt|evs audio Hatt|evs audio e Hatt]; subst.
    + exists idxs. rewrite (attempts_persisted Hatt). simpl.
      repeat split; auto.
    + exists (i :: idxs).
      rewrite persisted_app, (attempts_persisted Hatt). simpl.
      rewrite Hpaths, Hfiles. repeat split; auto.
      * constructor; [exact Hsort|].
        eapply Forall_impl; [|exact Hrange]. simpl. intros; lia.
      * constructor; [lia | exact Hlater].
      * lia.
    + exists idxs. rewrite persisted_app, (attempts_persisted Hatt). simpl.
      repeat split; auto.
Qed.

Lemma posts_app (h1 h2 : history) : posts (h1 ++ h2) = posts h1 ++ posts h2.
Proof. apply flat_map_app. Qed.

Lemma attempts_posts (p : payload) (evs : history) (r : option buffer) :
  attempts p evs r -> In p (posts evs).
Proof. destruct 1; simpl; auto. Qed.

(** Every segment has its request sent. *)
Lemma runs_request_all (chunks : list jsstring) (k : nat) :
  forall i runs,
    Forall2 (run_of chunks) (seq i k) runs ->
    forall j, (i <= j < i + k)%nat ->
      In (request (nth j chunks []) voice instructions no_options)
         (posts (concat (map fst runs))).
Proof.
  induction k as [|k IH]; intros i runs Hruns j Hj; [lia|].
  simpl in Hruns. inversion Hruns as [|i' r js rs Hrun Hrest]; subst.
  simpl map. simpl concat. rewrite posts_app. apply in_or_app.
  destruct (Nat.eq_dec j i) as [->|Hne].
  - left. destruct r as [blk out]. simpl in Hrun.
    inversion Hrun as [evs Hatt|evs audio Hatt|evs audio e Hatt]; subst;
      simpl fst; rewrite ?posts_app; try apply in_or_app; try left;
      exact (attempts_posts Hatt).
  - right. apply (IH (S i)); [exact Hrest | lia].
Qed.

(** A chunk size of 1000 is never rejected. *)
Lemma splitDocument_1000 (document : jsstring) :
  exists chunks, splitDocument document (of_Z 1000) = Return chunks.
Proof.
  destruct (blank document) eqn:Hb.
  - exists []. now apply splitDocument_blank.
  - eexists. apply splitDocument_chunks; [exact Hb | lia].
Qed.

End GeneratorProperties.

(** ** The claims on the orchestrator *)

Section GeneratorClaims.

Variable axios_post : history -> payload -> axios_outcome.
Variable TextDecoder_decode : buffer -> completion jsstring.
Variable path_join : jsstring -> jsstring -> jsstring.
Variable writeFileSync : history -> jsstring -> buffer -> option js_error.
Variable execAsync : history -> jsstring -> option js_error.

Local Abbreviation generate :=
  (generateSpeechFromDocument axios_post TextDecoder_decode path_join
     writeFileSync).

Lemma generate_runs (document outputDir voice instructions : jsstring)
    (h : history) :
  exists chunks runs,
    splitDocument document (of_Z 1000) = Return chunks /\
    generate document outputDir voice instructions h
    = (Return (concat (map snd runs)), h ++ concat (map fst runs)) /\
    Forall2
      (fun j r =>
         segment_run path_join outputDir voice instructions j
           (nth j chunks []) (fst r) (snd r))
      (seq 0 (length chunks)) runs.
Proof.
  destruct (splitDocument_1000 document) as (chunks & Hsplit).
  destruct (@segment_loop_runs axios_post TextDecoder_decode path_join
              writeFileSync outputDir voice instructions chunks
              (length chunks) 0%nat [] h) as (runs & Hloop & Hruns); [lia|].
  exists chunks, runs. split; [exact Hsplit|]. split; [|exact Hruns].
  unfold generateSpeechFromDocument. cbv zeta. rewrite Hsplit, Hloop.
  reflexivity.
Qed.

(** C1: whatever the remote and the file system answer, and so whichever
    segments fail to be synthesized, a run of [generateSpeechFromDocument]
    returns normally; every segment of the document has its run, in order,
    and its request sent; a segment whose synthesis failed adds nothing and
    the segments after it are still handled; and the paths returned are
    those of the files written during the run. *)
Theorem orchestrator_skips_failed_segments
    (document outputDir voice instructions : jsstring) (h : history) :
  exists chunks runs,
    splitDocument document (of_Z 1000) = Return chunks /\
    generate document outputDir voice instructions h
    = (Return (concat (map snd runs)), h ++ concat (map fst runs)) /\
    Forall2
      (fun j r =>
         segment_run path_join outputDir voice instructions j
           (nth j chunks []) (fst r) (snd r))
      (seq 0 (length chunks)) runs /\
    (forall j, (j < length chunks)%nat ->
       In (request (nth j chunks []) voice instructions no_options)
          (posts (concat (map fst runs)))) /\
    concat (map snd runs)
    = map forward_slashes (persisted (concat (map fst runs))).
Proof.
  destruct (generate_runs document outputDir voice instructions h)
    as (chunks & runs & Hsplit & Hrun & Hruns).
  exists chunks, runs.
  split; [exact Hsplit|]. split; [exact Hrun|]. split; [exact Hruns|]. split.
  - intros j Hj.
    eapply runs_request_all; [exact Hruns | lia].
  - destruct (@runs_indices _ _ _ _ _ _ _ _ Hruns)
      as (idxs & Hpaths & Hfiles & _).
    etransitivity; [exact Hpaths|]. symmetry.
    etransitivity; [apply f_equal; exact Hfiles | apply map_map].
Qed.

(** C8, amended: in every run, the audio that the synthesis of the segment
    of index [i] returned is written to the file [chunk_<i+1>.mp3] joined to
    the output directory, and to no other file; the segment is persisted,
    and its path returned, when this write succeeds, and it is skipped when
    the write throws, as it is when its synthesis fails.  The paths returned
    are those of the files persisted, for a list of segment indices that is
    strictly increasing, so without duplicates, and there are at most as
    many of them as there are segments. *)
Theorem artifacts_named_and_ordered
    (document outputDir voice instructions : jsstring) (h : history) :
  let file := fun i : nat =>
    path_join outputDir (js "chunk_" ++ decimal (i + 1) ++ js ".mp3") in
  exists chunks runs idxs,
    splitDocument document (of_Z 1000) = Return chunks /\
    generate document outputDir voice instructions h
    = (Return (map (fun i => forward_slashes (file i)) idxs),
       h ++ concat (map fst runs)) /\
    Forall2
      (fun (i : nat) (r : history * list jsstring) =>
         let p := request (nth i chunks []) voice instructions no_options in
         (attempts p (fst r) None /\ snd r = []) \/
         (exists evs audio,
            attempts p evs (Some audio) /\
            fst r = evs ++ [EvWrite (file i) audio None] /\
            snd r = [forward_slashes (file i)]) \/
         (exists evs audio e,
            attempts p evs (Some audio) /\
            fst r = evs ++ [EvWrite (file i) audio (Some e)] /\
            snd r = []))
      (seq 0 (length chunks)) runs /\
    persisted (concat (map fst runs)) = map file idxs /\
    StronglySorted lt idxs /\
    Forall (fun i => (i < length chunks)%nat) idxs /\
    (length idxs <= length chunks)%nat.
Proof.
  intros file.
  destruct (generate_runs document outputDir voice instructions h)
    as (chunks & runs & Hsplit & Hrun & Hruns).
  destruct (@runs_indices _ _ _ _ _ _ _ _ Hruns)
    as (idxs & Hpaths & Hfiles & Hsort & Hrange & Hlen).
  assert (Hname : forall i, chunk_path path_join outputDir i = file i)
    by reflexivity.
  exists chunks, runs, idxs.
  split; [exact Hsplit|].
  split.
  { rewrite Hrun. f_equal. f_equal. etransitivity; [exact Hpaths|].
    apply map_ext. intros i. reflexivity. }
  split.
  { eapply Forall2_impl; [|exact Hruns].
    intros i [blk out] Hone. cbn [fst snd] in *.
    inversion Hone as [evs Hatt|evs audio Hatt|evs audio e Hatt]; subst.
    - left. now split.
    - right. left. exists evs, audio. now repeat split.
    - right. right. exists evs, audio, e. now repeat split. }
  split.
  { etransitivity; [exact Hfiles|]. apply map_ext. intros i. reflexivity. }
  split; [exact Hsort|].
  split; [|exact Hlen].
  eapply Forall_impl; [|exact Hrange]. simpl. intros; lia.
Qed.

(** C10: [combineAudioFiles] returns null for no path; for one path it
    returns that path and runs nothing; for two paths or more it runs the
    ffmpeg command, returns the output path when the command succeeds, and
    throws the error "Failed to combine audio files" when it fails. *)
Theorem combineAudioFiles_cases (outputPath : jsstring) (h : history) :
  combineAudioFiles execAsync [] outputPath h = (Return None, h) /\
  (forall f,
     combineAudioFiles execAsync [f] outputPath h = (Return (Some f), h)) /\
  (forall f1 f2 rest,
     let command := concat_command (f1 :: f2 :: rest) outputPath in
     combineAudioFiles execAsync (f1 :: f2 :: rest) outputPath h
     = match execAsync h command with
       | None => (Return (Some outputPath), h ++ [EvExec command None])
       | Some error =>
           (Throw (Error (js "Failed to combine audio files")),
            h ++ [EvExec command (Some error)])
       end).
Proof. repeat split. Qed.

End GeneratorClaims.

(** The names of the files: the segment of index 0 goes to [chunk_1.mp3],
    the one of index 9 to [chunk_10.mp3]. *)
Example chunk_file_names :
  map (fun i => js "chunk_" ++ decimal (i + 1) ++ js ".mp3") [0; 8; 9; 99]%nat
  = [js "chunk_1.mp3"; js "chunk_9.mp3"; js "chunk_10.mp3";
     js "chunk_100.mp3"].
Proof. reflexivity. Qed.

(** C8, as stated, fails: when the write of the file throws, a segment that
    was synthesized with success is not persisted.  Here the only segment of
    the document gets its audio from the remote, the disk is full, and the
    run returns no path and leaves no file. *)
Lemma failed_write_skips_segment :
  let p := request (js "hello") (js "alloy") (js "Speak in a neutral tone.")
             no_options in
  let run := generateSpeechFromDocument Sample.remote_ok Sample.decode
               Sample.join_posix Sample.disk_full
               (js "hello") (js "out") (js "alloy")
               (js "Speak in a neutral tone.") [] in
  fst (generateSpeech Sample.remote_ok Sample.decode (js "hello") (js "alloy")
         (js "Speak in a neutral tone.") no_options []) = Return [] /\
  run = (Return [],
         [EvPost p (Fulfilled 200 []);
          EvWrite (js "out/chunk_1.mp3") []
            (Some (Error (js "ENOSPC: no space left on device, write")))]) /\
  persisted (snd run) = [].
Proof. repeat split. Qed.

(** ** A run with a failing segment *)

(** Five segments, the third of which is always answered with 429: the run
    returns the four other files, under their own indices, and the history
    shows one request for each segment and four writes. *)
Example partial_failure_run :
  let document :=
    repeat 97%N 2000 ++ repeat 120%N 1000 ++ repeat 97%N 1500 in
  let remote := fun (_ : history) (p : payload) =>
    match input p with
    | (120%N :: _) => Rejected (WithResponse 429 None)
    | _ => Fulfilled 200 []
    end in
  let join_posix := fun dir name : jsstring => dir ++ js "/" ++ name in
  let run := generateSpeechFromDocument remote (fun _ => Return []) join_posix
               (fun _ _ _ => None)
               document (js "out") (js "alloy") (js "Speak in a neutral tone.")
               [] in
  fst run = Return [js "out/chunk_1.mp3"; js "out/chunk_2.mp3";
                    js "out/chunk_4.mp3"; js "out/chunk_5.mp3"] /\
  length (posts (snd run)) = 5%nat /\
  persisted (snd run) = [js "out/chunk_1.mp3"; js "out/chunk_2.mp3";
                         js "out/chunk_4.mp3"; js "out/chunk_5.mp3"].
Proof. vm_compute. repeat split. Qed.

(** * Further properties of [generateSpeech] *)

Section ClientBudget.

Variable axios_post : history -> payload -> axios_outcome.
Variable TextDecoder_decode : buffer -> completion jsstring.

Local Abbreviation retry := (retry_loop axios_post TextDecoder_decode).
Local Abbreviation handler := (on_error TextDecoder_decode).

Lemma sleeps_app (h1 h2 : history) :
  sleeps (h1 ++ h2) = sleeps h1 ++ sleeps h2.
Proof. apply flat_map_app. Qed.

(** The waits of a call that starts at [attempt] and sends [k] requests. *)
Lemma backoff_shift (attempt : Z) (k : nat) :
  (1 <= k)%nat ->
  1000 * (attempt + 1)
    :: map (fun j => 1000 * (attempt + 1 + Z.of_nat j)) (seq 1 (k - 1))
  = map (fun j => 1000 * (attempt + Z.of_nat j)) (seq 1 k).
Proof.
  intros Hk. destruct k as [|k]; [lia|].
  replace (S k - 1)%nat with k by lia.
  change (seq 1 (S k)) with (1%nat :: seq 2 k). cbn [map].
  replace (attempt + Z.of_nat 1) with (attempt + 1) by lia. f_equal.
  rewrite <- (seq_shift k 1), map_map. apply map_ext. intros j. f_equal. lia.
Qed.

(** From [attempt] on, the loop sends between one request and as many as
    there are attempts left, all with the same body, and after the [j]-th
    attempt that is retried it waits [1000 * j] ms; it does nothing else. *)
Lemma retry_loop_budget (p : payload) (n : nat) :
  forall attempt h,
    0 <= attempt < maxRetries -> Z.to_nat (maxRetries - attempt) = n ->
    exists evs k,
      snd (retry p attempt h) = h ++ evs /\
      (1 <= k <= n)%nat /\
      posts evs = repeat p k /\
      sleeps evs = map (fun j => 1000 * (attempt + Z.of_nat j)) (seq 1 (k - 1)) /\
      persisted evs = [] /\
      Forall (fun e => match e with
                       | EvPost _ _ | EvSleep _ => True
                       | _ => False
                       end) evs.
Proof.
  induction n as [|n IH]; intros attempt h Hatt Hn; [lia|].
  rewrite retry_loop_unfold.
  destruct (Z.ltb_spec attempt maxRetries); [|lia].
  destruct (axios_post h p) as [status data|error].
  - exists [EvPost p (Fulfilled status data)], 1%nat.
    repeat split; simpl; auto; lia.
  - destruct (handler (attempt + 1) error) as [e|] eqn:He.
    + exists [EvPost p (Rejected error)], 1%nat.
      repeat split; simpl; auto; lia.
    + destruct (Z.lt_ge_cases (attempt + 1) maxRetries) as [Hnext|Hlast];
        [|now destruct (@on_error_last TextDecoder_decode (attempt + 1) error)].
      destruct (IH (attempt + 1)
                  (h ++ [EvPost p (Rejected error);
                         EvSleep (1000 * (attempt + 1))]))
        as (evs & k & Hevs & Hk & Hposts & Hsleeps & Hfiles & Honly);
        [lia | lia |].
      exists (EvPost p (Rejected error) :: EvSleep (1000 * (attempt + 1)) :: evs),
             (S k).
      split; [rewrite Hevs, <- app_assoc; reflexivity|].
      split; [lia|].
      split; [simpl; now rewrite Hposts|].
      split.
      { change (sleeps (EvPost p (Rejected error)
                          :: EvSleep (1000 * (attempt + 1)) :: evs))
          with (1000 * (attempt + 1) :: sleeps evs).
        rewrite Hsleeps. replace (S k - 1)%nat with k by lia.
        apply backoff_shift. lia. }
      split; [exact Hfiles|].
      repeat constructor. exact Honly.
Qed.

Lemma on_error_codes (attempt : Z) (error : axios_error) (e : js_error) :
  handler attempt error = Some e ->
  exists message status code,
    e = OpenAIError message status code /\ In code client_error_codes.
Proof.
  unfold on_error, client_error_codes.
  destruct error as [status data|code message|message].
  - destruct (status =? 504);
      [intros [= <-]; do 3 eexists; split; [reflexivity | simpl; auto]|].
    destruct (status =? 429);
      [intros [= <-]; do 3 eexists; split; [reflexivity | simpl; auto]|].
    destruct (negb _ || _); [|discriminate].
    intros [= <-]. do 3 eexists. split; [reflexivity | simpl; auto].
  - destruct (match code with Some c => _ | None => false end);
      [intros [= <-]; do 3 eexists; split; [reflexivity | simpl; auto 10]|].
    destruct (maxRetries <=? attempt); [|discriminate].
    intros [= <-]. do 3 eexists. split; [reflexivity | simpl; auto 10].
  - destruct (maxRetries <=? attempt); [|discriminate].
    intros [= <-]. do 3 eexists. split; [reflexivity | simpl; auto 10].
Qed.

Lemma retry_loop_codes (p : payload) (n : nat) :
  forall attempt h e,
    0 <= attempt < maxRetries -> Z.to_nat (maxRetries - attempt) = n ->
    fst (retry p attempt h) = Throw e ->
    exists message status code,
      e = OpenAIError message status code /\ In code client_error_codes.
Proof.
  induction n as [|n IH]; intros attempt h e Hatt Hn; [lia|].
  rewrite retry_loop_unfold.
  destruct (Z.ltb_spec attempt maxRetries); [|lia].
  destruct (axios_post h p) as [status data|error]; [discriminate|].
  destruct (handler (attempt + 1) error) as [e'|] eqn:He.
  - intros [= <-]. eapply on_error_codes. exact He.
  - destruct (Z.lt_ge_cases (attempt + 1) maxRetries) as [Hnext|Hlast];
      [|now destruct (@on_error_last TextDecoder_decode (attempt + 1) error)].
    apply IH; lia.
Qed.

End ClientBudget.

Section ClientExtras.

Variable axios_post : history -> payload -> axios_outcome.
Variable TextDecoder_decode : buffer -> completion jsstring.

Local Abbreviation synth := (generateSpeech axios_post TextDecoder_decode).

(** X1: whatever the remote does, a call of [generateSpeech] sends at least
    one request and at most three, every one with the same body, and it
    waits 1000 ms between the first and the second and 2000 ms between the
    second and the third: what the call adds to the history is one request;
    or a rejected request, a wait of 1000 ms and a request; or a rejected
    request, a wait of 1000 ms, a rejected request, a wait of 2000 ms and a
    request.  It writes no file and runs no command. *)
Theorem generateSpeech_request_budget
    (text voice instructions : jsstring) (voiceOptions : VoiceOptions)
    (h : history) :
  let p := request text voice instructions voiceOptions in
  exists evs,
    snd (synth text voice instructions voiceOptions h) = h ++ evs /\
    ((exists r1, evs = [EvPost p r1]) \/
     (exists e1 r2,
        evs = [EvPost p (Rejected e1); EvSleep 1000; EvPost p r2]) \/
     (exists e1 e2 r3,
        evs = [EvPost p (Rejected e1); EvSleep 1000;
               EvPost p (Rejected e2); EvSleep 2000; EvPost p r3])).
Proof.
  intros p. unfold generateSpeech. fold p.
  rewrite retry_loop_unfold. change (0 <? maxRetries) with true. cbv iota.
  destruct (axios_post h p) as [s1 d1|e1];
    [eexists; split; [reflexivity | left; eexists; reflexivity]|].
  destruct (on_error TextDecoder_decode (0 + 1) e1) as [t1|];
    [eexists; split; [reflexivity | left; eexists; reflexivity]|].
  rewrite retry_loop_unfold. change (0 + 1 <? maxRetries) with true. cbv iota.
  change (1000 * (0 + 1)) with 1000.
  match goal with |- context [axios_post ?h1 p] =>
    destruct (axios_post h1 p) as [s2 d2|e2] end;
    [eexists; split; [rewrite <- app_assoc; reflexivity
                     | right; left; do 2 eexists; reflexivity]|].
  destruct (on_error TextDecoder_decode (0 + 1 + 1) e2) as [t2|];
    [eexists; split; [rewrite <- app_assoc; reflexivity
                     | right; left; do 2 eexists; reflexivity]|].
  rewrite retry_loop_unfold. change (0 + 1 + 1 <? maxRetries) with true.
  cbv iota. change (1000 * (0 + 1 + 1)) with 2000.
  match goal with |- context [axios_post ?h2 p] =>
    destruct (axios_post h2 p) as [s3 d3|e3] end;
    [eexists; split; [rewrite <- !app_assoc; reflexivity
                     | right; right; do 3 eexists; reflexivity]|].
  destruct (on_error TextDecoder_decode (0 + 1 + 1 + 1) e3) as [t3|] eqn:Hlast;
    [eexists; split; [rewrite <- !app_assoc; reflexivity
                     | right; right; do 3 eexists; reflexivity]|].
  exfalso. revert Hlast. apply on_error_last. unfold maxRetries. lia.
Qed.

(** X2: an error thrown by [generateSpeech] is always an [OpenAIError]
    whose code is one of [OPENAI_TIMEOUT], [RATE_LIMIT_EXCEEDED],
    [API_ERROR], [REQUEST_TIMEOUT], [NO_RESPONSE] and [REQUEST_SETUP_ERROR];
    the [UNEXPECTED_ERROR] after the loop is never thrown. *)
Theorem generateSpeech_error_codes
    (text voice instructions : jsstring) (voiceOptions : VoiceOptions)
    (h : history) (e : js_error) :
  fst (synth text voice instructions voiceOptions h) = Throw e ->
  exists message status code,
    e = OpenAIError message status code /\
    In code client_error_codes /\
    code <> js "UNEXPECTED_ERROR".
Proof.
  intros Hthrow.
  destruct (@retry_loop_codes axios_post TextDecoder_decode
              (request text voice instructions voiceOptions) 3 0 h e)
    as (message & status & code & He & Hcode);
    [unfold maxRetries; lia | reflexivity | exact Hthrow |].
  exists message, status, code. repeat split; try assumption.
  intros ->. simpl in Hcode.
  repeat (destruct Hcode as [Hcode|Hcode]; [discriminate|]). exact Hcode.
Qed.

(** X3: a 504 answer to the first request ends the call at once, with no
    wait and no second request: the error thrown has status 504 and code
    [OPENAI_TIMEOUT], the UpstreamTimeout of the specification. *)
Theorem generateSpeech_gateway_timeout
    (text voice instructions : jsstring) (voiceOptions : VoiceOptions)
    (h : history) (data : option buffer) :
  let p := request text voice instructions voiceOptions in
  axios_post h p = Rejected (WithResponse 504 data) ->
  exists message,
    synth text voice instructions voiceOptions h
    = (Throw (OpenAIError message 504 (js "OPENAI_TIMEOUT")),
       h ++ [EvPost p (Rejected (WithResponse 504 data))]) /\
    kind_of (OpenAIError message 504 (js "OPENAI_TIMEOUT"))
    = Some UpstreamTimeout.
Proof.
  intros p Hremote. eexists. split; [|reflexivity].
  unfold generateSpeech. fold p.
  rewrite retry_loop_unfold. simpl (0 <? maxRetries). cbv iota.
  rewrite Hremote. reflexivity.
Qed.


(** X5: when no answer arrives because the client aborted the request
    ([ECONNABORTED]), the call ends at once with status 504 and code
    [REQUEST_TIMEOUT]; the request is not sent again. *)
Theorem generateSpeech_client_timeout
    (text voice instructions : jsstring) (voiceOptions : VoiceOptions)
    (h : history) (message : jsstring) :
  let p := request text voice instructions voiceOptions in
  let error := WithRequest (Some (js "ECONNABORTED")) message in
  let e := OpenAIError
             (js "Request timed out. The OpenAI server took too long to respond.")
             504 (js "REQUEST_TIMEOUT") in
  axios_post h p = Rejected error ->
  synth text voice instructions voiceOptions h
  = (Throw e, h ++ [EvPost p (Rejected error)]) /\
  kind_of e = Some RequestTimeout.
Proof.
  intros p error e Hremote. split; [|reflexivity].
  unfold generateSpeech. fold p.
  rewrite retry_loop_unfold. simpl (0 <? maxRetries). cbv iota.
  rewrite Hremote. reflexivity.
Qed.

(** X6: when no request is ever answered, and not because the client
    aborted, the call makes three attempts, waits 1000 ms and 2000 ms between
    them, and throws the error of status 500 and code [NO_RESPONSE]. *)
Theorem generateSpeech_no_response
    (text voice instructions : jsstring) (voiceOptions : VoiceOptions)
    (h : history) :
  (forall h' p, exists code message,
      axios_post h' p = Rejected (WithRequest code message) /\
      code <> Some (js "ECONNABORTED")) ->
  let p := request text voice instructions voiceOptions in
  let e := OpenAIError
             (js "Failed to receive response from OpenAI API after multiple attempts.")
             500 (js "NO_RESPONSE") in
  exists r1 r2 r3,
    synth text voice instructions voiceOptions h
    = (Throw e,
       h ++ [EvPost p r1; EvSleep 1000; EvPost p r2; EvSleep 2000; EvPost p r3])
    /\ kind_of e = Some NoResponse.
Proof.
  intros Hremote p e.
  assert (Hpass : forall attempt code message,
            code <> Some (js "ECONNABORTED") ->
            on_error TextDecoder_decode attempt (WithRequest code message)
            = if maxRetries <=? attempt then Some e else None).
  { intros attempt code message Hcode. unfold on_error.
    destruct code as [c|]; [|reflexivity].
    destruct (string_eqb c (js "ECONNABORTED")) eqn:Heq; [|reflexivity].
    exfalso. apply Hcode. f_equal.
    clear -Heq. revert Heq. generalize (js "ECONNABORTED").
    induction c as [|x c IH]; intros [|y t]; simpl; try discriminate;
      [reflexivity|].
    intros H. apply andb_true_iff in H. destruct H as [Hxy Hct].
    apply N.eqb_eq in Hxy. subst. f_equal. now apply IH. }
  unfold generateSpeech. fold p.
  rewrite retry_loop_unfold. simpl (0 <? maxRetries). cbv iota.
  destruct (Hremote h p) as (c1 & m1 & E1 & N1). rewrite E1.
  rewrite Hpass by assumption. simpl (maxRetries <=? 0 + 1). cbv iota.
  rewrite retry_loop_unfold. simpl (0 + 1 <? maxRetries). cbv iota.
  match goal with |- context [axios_post ?h1 p] =>
    destruct (Hremote h1 p) as (c2 & m2 & E2 & N2); rewrite E2 end.
  rewrite Hpass by assumption. simpl (maxRetries <=? 0 + 1 + 1). cbv iota.
  rewrite retry_loop_unfold. simpl (0 + 1 + 1 <? maxRetries). cbv iota.
  match goal with |- context [axios_post ?h2 p] =>
    destruct (Hremote h2 p) as (c3 & m3 & E3 & N3); rewrite E3 end.
  rewrite Hpass by assumption. simpl (maxRetries <=? 0 + 1 + 1 + 1). cbv iota.
  do 3 eexists. split; [|reflexivity].
  rewrite <- !app_assoc. reflexivity.
Qed.

(** X7: a retryable failure of the first request is recovered from: when
    the second request is fulfilled, the call waits 1000 ms in between and
    returns the bytes of the second answer. *)
Theorem generateSpeech_recovers
    (text voice instructions : jsstring) (voiceOptions : VoiceOptions)
    (h : history) (error : axios_error) (status : Z) (data : buffer) :
  let p := request text voice instructions voiceOptions in
  retryable error = true ->
  axios_post h p = Rejected error ->
  axios_post (h ++ [EvPost p (Rejected error); EvSleep 1000]) p
  = Fulfilled status data ->
  synth text voice instructions voiceOptions h
  = (Return data,
     h ++ [EvPost p (Rejected error); EvSleep 1000;
           EvPost p (Fulfilled status data)]).
Proof.
  intros p Hretry H1 H2.
  assert (Hpass : on_error TextDecoder_decode 1 error = None).
  { unfold on_error. destruct error as [s d|code message|message];
      simpl in Hretry.
    - apply andb_true_iff in Hretry. destruct Hretry as [Hrange H504].
      apply negb_true_iff in H504. rewrite H504.
      destruct (Z.eqb_spec s 429).
      + subst. discriminate.
      + rewrite Hrange. reflexivity.
    - destruct code as [c|]; [|reflexivity].
      apply negb_true_iff in Hretry. now rewrite Hretry.
    - reflexivity. }
  unfold generateSpeech. fold p.
  rewrite retry_loop_unfold. simpl (0 <? maxRetries). cbv iota.
  rewrite H1. change (0 + 1) with 1. rewrite Hpass.
  rewrite retry_loop_unfold. simpl (1 <? maxRetries). cbv iota.
  change (1000 * 1) with 1000. rewrite H2.
  rewrite <- app_assoc. reflexivity.
Qed.

End ClientExtras.

Lemma attempts_last (p : payload) (evs : history) (r : option buffer) :
  attempts p evs r ->
  exists before o,
    evs = before ++ [EvPost p o] /\
    Forall (fun e => forall q s d, e <> EvPost q (Fulfilled s d)) before /\
    r = match o with
        | Fulfilled _ d => Some d
        | Rejected _ => None
        end.
Proof.
  induction 1 as [status audio|error|error ms evs r Hatt IH].
  - exists [], (Fulfilled status audio). repeat split. constructor.
  - exists [], (Rejected error). repeat split. constructor.
  - destruct IH as (before & o & -> & Hbefore & ->).
    exists (EvPost p (Rejected error) :: EvSleep ms :: before), o.
    repeat split. repeat constructor; try discriminate. exact Hbefore.
Qed.

(** X8: a call of [generateSpeech] returns exactly when its last request is
    fulfilled, and then it returns the bytes of that answer unchanged; no
    earlier request of the call was fulfilled. *)
Theorem generateSpeech_returns_last_response
    (axios_post : history -> payload -> axios_outcome)
    (TextDecoder_decode : buffer -> completion jsstring)
    (text voice instructions : jsstring) (voiceOptions : VoiceOptions)
    (h : history) :
  let p := request text voice instructions voiceOptions in
  let run := generateSpeech axios_post TextDecoder_decode
               text voice instructions voiceOptions h in
  exists before o,
    snd run = h ++ before ++ [EvPost p o] /\
    Forall (fun e => forall q s d, e <> EvPost q (Fulfilled s d)) before /\
    match o with
    | Fulfilled _ data => fst run = Return data
    | Rejected _ => exists e, fst run = Throw e
    end.
Proof.
  intros p run.
  destruct (generateSpeech_attempts axios_post TextDecoder_decode
              text voice instructions voiceOptions h)
    as (evs & Hevs & Hatt).
  destruct (attempts_last Hatt) as (before & o & -> & Hbefore & Hres).
  exists before, o. split; [exact Hevs|]. split; [exact Hbefore|].
  fold run in Hres. destruct (fst run) as [audio|e]; simpl in Hres.
  - destruct o; [now inversion Hres | discriminate].
  - destruct o; [discriminate | now exists e].
Qed.

Lemma generateSpeech_error_codes_witness :
  exists message status code,
    OpenAIError (js "OpenAI API rate limit exceeded. Please try again after some time.")
      429 (js "RATE_LIMIT_EXCEEDED")
    = OpenAIError message status code /\
    In code client_error_codes /\
    code <> js "UNEXPECTED_ERROR".
Proof.
  apply (@generateSpeech_error_codes
           (fun _ _ => Rejected (WithResponse 429 None)) (fun _ => Return [])
           (js "hello") (js "alloy") (js "Speak in a neutral tone.")
           no_options []).
  reflexivity.
Defined.

Lemma generateSpeech_gateway_timeout_witness :
  let remote := fun (_ : history) (_ : payload) =>
                  Rejected (WithResponse 504 None) in
  let p := request (js "hello") (js "alloy") (js "Speak in a neutral tone.")
             no_options in
  exists message,
    generateSpeech remote (fun _ => Return [])
      (js "hello") (js "alloy") (js "Speak in a neutral tone.") no_options []
    = (Throw (OpenAIError message 504 (js "OPENAI_TIMEOUT")),
       [] ++ [EvPost p (Rejected (WithResponse 504 None))]) /\
    kind_of (OpenAIError message 504 (js "OPENAI_TIMEOUT"))
    = Some UpstreamTimeout.
Proof.
  intros remote p.
  apply (@generateSpeech_gateway_timeout remote (fun _ => Return [])
           (js "hello") (js "alloy") (js "Speak in a neutral tone.")
           no_options [] None).
  reflexivity.
Defined.


Lemma generateSpeech_client_timeout_witness :
  let error := WithRequest (Some (js "ECONNABORTED"))
                 (js "timeout of 30000ms exceeded") in
  let remote := fun (_ : history) (_ : payload) => Rejected error in
  let p := request (js "hello") (js "alloy") (js "Speak in a neutral tone.")
             no_options in
  let e := OpenAIError
             (js "Request timed out. The OpenAI server took too long to respond.")
             504 (js "REQUEST_TIMEOUT") in
  generateSpeech remote (fun _ => Return [])
    (js "hello") (js "alloy") (js "Speak in a neutral tone.") no_options []
  = (Throw e, [] ++ [EvPost p (Rejected error)]) /\
  kind_of e = Some RequestTimeout.
Proof.
  intros error remote p e.
  apply (@generateSpeech_client_timeout remote (fun _ => Return [])
           (js "hello") (js "alloy") (js "Speak in a neutral tone.")
           no_options [] (js "timeout of 30000ms exceeded")).
  reflexivity.
Defined.

Lemma generateSpeech_no_response_witness :
  let remote := fun (_ : history) (_ : payload) =>
                  Rejected (WithRequest (Some (js "ECONNRESET"))
                              (js "socket hang up")) in
  let p := request (js "hello") (js "alloy") (js "Speak in a neutral tone.")
             no_options in
  let e := OpenAIError
             (js "Failed to receive response from OpenAI API after multiple attempts.")
             500 (js "NO_RESPONSE") in
  exists r1 r2 r3,
    generateSpeech remote (fun _ => Return [])
      (js "hello") (js "alloy") (js "Speak in a neutral tone.") no_options []
    = (Throw e,
       [] ++ [EvPost p r1; EvSleep 1000; EvPost p r2; EvSleep 2000; EvPost p r3])
    /\ kind_of e = Some NoResponse.
Proof.
  intros remote p e.
  apply (@generateSpeech_no_response remote (fun _ => Return [])
           (js "hello") (js "alloy") (js "Speak in a neutral tone.")
           no_options []).
  intros h' q. exists (Some (js "ECONNRESET")), (js "socket hang up").
  split; [reflexivity | discriminate].
Defined.

Lemma generateSpeech_recovers_witness :
  let error := WithResponse 503 None in
  let remote := fun (h : history) (_ : payload) =>
                  match h with
                  | [] => Rejected error
                  | _ => Fulfilled 200 []
                  end in
  let p := request (js "hello") (js "alloy") (js "Speak in a neutral tone.")
             no_options in
  generateSpeech remote (fun _ => Return [])
    (js "hello") (js "alloy") (js "Speak in a neutral tone.") no_options []
  = (Return [],
     [] ++ [EvPost p (Rejected error); EvSleep 1000;
            EvPost p (Fulfilled 200 [])]).
Proof.
  intros error remote p.
  apply (@generateSpeech_recovers remote (fun _ => Return [])
           (js "hello") (js "alloy") (js "Speak in a neutral tone.")
           no_options [] error 200 []); reflexivity.
Defined.

(** * Further properties of [splitDocument] *)

Section ChunkerExtras.

Local Abbreviation len s := (Z.of_nat (length s)).

(** The loop spelled out: from index [i] on, chunk number [k] is the slice
    that starts [k] steps further. *)
Lemma chunk_loop_closed_form (text : jsstring) (L : positive) (i : Z)
    (acc : list jsstring) :
  0 <= i ->
  chunk_loop text L i acc
  = acc ++ map (fun k => firstn (Pos.to_nat L)
                           (skipn (Z.to_nat i + k * Pos.to_nat L) text))
             (seq 0 (Z.to_nat (ceil_div (Z.max (len text - i) 0) (Z.pos L)))).
Proof.
  funelim (chunk_loop text L i acc); intros Hi.
  - match goal with IH : _ -> chunk_loop _ _ _ _ = _ |- _ =>
      rewrite IH by lia end.
    rewrite <- app_assoc. f_equal.
    rewrite (Z.max_l (len text - i)) by lia.
    rewrite (ceil_div_step (x := len text - i) (L := Z.pos chunkSize)) by lia.
    replace (len text - (i + Z.pos chunkSize))
      with (len text - i - Z.pos chunkSize) by lia.
    set (rest := ceil_div (Z.max (len text - i - Z.pos chunkSize) 0)
                   (Z.pos chunkSize)).
    assert (Hrest : 0 <= rest).
    { pose proof (@ceil_div_spec (Z.max (len text - i - Z.pos chunkSize) 0)
                    (Z.pos chunkSize)) as Hspec. fold rest in Hspec. nia. }
    replace (Z.to_nat (1 + rest)) with (S (Z.to_nat rest)) by lia.
    change (seq 0 (S (Z.to_nat rest))) with (0%nat :: seq 1 (Z.to_nat rest)).
    cbn [map app]. f_equal.
    + rewrite slice_chunk by lia.
      replace (Z.to_nat i + 0 * Pos.to_nat chunkSize)%nat
        with (Z.to_nat i) by lia.
      replace (Z.to_nat (Z.pos chunkSize)) with (Pos.to_nat chunkSize) by lia.
      reflexivity.
    + rewrite <- (seq_shift (Z.to_nat rest) 0), map_map.
      apply map_ext. intros k. f_equal. f_equal. lia.
  - rewrite Z.max_r by lia. unfold ceil_div. simpl. now rewrite app_nil_r.
Qed.

Lemma blank_nonempty (T : jsstring) : blank T = false -> 0 < len T.
Proof. destruct T; [discriminate | simpl; lia]. Qed.

Lemma splitDocument_closed_form (T : jsstring) (L : number) (z : Z) :
  blank T = false -> 0 < z -> num_eq L (of_Z z) ->
  splitDocument T L
  = Return (map (fun k => firstn (Z.to_nat z) (skipn (k * Z.to_nat z) T))
              (seq 0 (Z.to_nat (ceil_div (len T) z)))).
Proof.
  intros Hb Hz HL.
  rewrite (splitDocument_num_eq T L z HL), splitDocument_chunks by assumption.
  rewrite chunk_loop_closed_form by lia. cbn [app]. f_equal.
  rewrite Z.sub_0_r, Z.max_l by lia.
  replace (Z.pos (Z.to_pos z)) with z by lia.
  replace (Pos.to_nat (Z.to_pos z)) with (Z.to_nat z) by lia.
  reflexivity.
Qed.

Lemma nth_map_seq (A : Type) (f : nat -> A) (d : A) (n k : nat) :
  (k < n)%nat -> nth k (map f (seq 0 n)) d = f k.
Proof.
  intros Hk. rewrite (nth_indep _ d (f 0%nat)) by (now rewrite length_map, length_seq).
  rewrite map_nth, seq_nth by exact Hk. reflexivity.
Qed.

(** X9: chunk number [k] of [splitDocument T L] is the part of [T] from
    index [k * L] up to, but without, index [(k + 1) * L], for [k] from 0 to
    ceil(len(T) / L) - 1; [T] has a character that is not white space and
    [L] is a positive integer. *)
Theorem splitDocument_chunk_contents (T : jsstring) (L : number) (z : Z) :
  blank T = false -> 0 < z -> num_eq L (of_Z z) ->
  splitDocument T L
  = Return (map (fun k => firstn (Z.to_nat z) (skipn (k * Z.to_nat z) T))
              (seq 0 (Z.to_nat (ceil_div (len T) z)))).
Proof.
  intros Hb Hz HL.
  rewrite (splitDocument_num_eq T L z HL), splitDocument_chunks by assumption.
  rewrite chunk_loop_closed_form by lia. cbn [app]. f_equal.
  rewrite Z.sub_0_r, Z.max_l by lia.
  replace (Z.pos (Z.to_pos z)) with z by lia.
  replace (Pos.to_nat (Z.to_pos z)) with (Z.to_nat z) by lia.
  reflexivity.
Qed.

(** X10: no chunk is empty, and every chunk but the last has exactly [L]
    code units. *)
Theorem splitDocument_chunk_sizes (T : jsstring) (L : number) (z : Z) :
  blank T = false -> 0 < z -> num_eq L (of_Z z) ->
  exists chunks,
    splitDocument T L = Return chunks /\
    Forall (fun c => 0 < len c) chunks /\
    (forall k, (S k < length chunks)%nat -> len (nth k chunks []) = z).
Proof.
  intros Hb Hz HL. eexists.
  split; [exact (@splitDocument_closed_form T L z Hb Hz HL)|].
  pose proof (@blank_nonempty T Hb) as Hlen.
  pose proof (@ceil_div_spec (len T) z Hz) as Hspec.
  set (c := ceil_div (len T) z) in *.
  split.
  - apply Forall_forall. intros chunk Hin.
    apply in_map_iff in Hin. destruct Hin as (k & <- & Hk).
    apply in_seq in Hk.
    rewrite length_firstn, length_skipn.
    assert (Hkc : Z.of_nat k <= c - 1) by lia.
    assert (Z.of_nat k * z <= (c - 1) * z) by nia.
    assert (Hprod : Z.of_nat (k * Z.to_nat z) = Z.of_nat k * z) by nia.
    lia.
  - intros k Hk. rewrite length_map, length_seq in Hk.
    rewrite nth_map_seq by lia.
    rewrite length_firstn, length_skipn.
    assert (Hkc : Z.of_nat k + 1 <= c - 1) by lia.
    assert ((Z.of_nat k + 1) * z <= (c - 1) * z) by nia.
    assert (Hprod : Z.of_nat (k * Z.to_nat z) = Z.of_nat k * z) by nia.
    lia.
Qed.

(** X11: a text no longer than the chunk size is returned as one chunk. *)
Theorem splitDocument_short_text (T : jsstring) (L : number) (z : Z) :
  blank T = false -> num_eq L (of_Z z) -> len T <= z ->
  splitDocument T L = Return [T].
Proof.
  intros Hb HL Hshort.
  pose proof (@blank_nonempty T Hb) as Hlen.
  rewrite (@splitDocument_closed_form T L z) by (assumption || lia).
  assert (Hz : 0 < z) by lia.
  pose proof (@ceil_div_spec (len T) z Hz) as Hspec.
  replace (ceil_div (len T) z) with 1 by nia.
  change (Z.to_nat 1) with 1%nat. cbn [seq map].
  rewrite Nat.mul_0_l. change (skipn 0 T) with T.
  rewrite firstn_all2 by lia. reflexivity.
Qed.

End ChunkerExtras.

Lemma splitDocument_chunk_contents_witness :
  splitDocument (js "hello world") (of_Z 4)
  = Return [js "hell"; js "o wo"; js "rld"].
Proof.
  rewrite (@splitDocument_chunk_contents (js "hello world") (of_Z 4) 4);
    [reflexivity | reflexivity | lia | reflexivity].
Defined.

Lemma splitDocument_chunk_sizes_witness :
  exists chunks,
    splitDocument (js "hello world") (of_Z 4) = Return chunks /\
    Forall (fun c => 0 < Z.of_nat (length c)) chunks /\
    (forall k, (S k < length chunks)%nat ->
       Z.of_nat (length (nth k chunks [])) = 4).
Proof.
  apply (@splitDocument_chunk_sizes (js "hello world") (of_Z 4) 4);
    [reflexivity | lia | reflexivity].
Defined.

Lemma splitDocument_short_text_witness :
  splitDocument (js "hello world") (of_Z 1000) = Return [js "hello world"].
Proof.
  apply (@splitDocument_short_text (js "hello world") (of_Z 1000) 1000);
    [reflexivity | reflexivity | simpl; lia].
Defined.

(** * Further properties of the orchestrator *)

Lemma generateSpeech_budget
    (axios_post : history -> payload -> axios_outcome)
    (TextDecoder_decode : buffer -> completion jsstring)
    (text voice instructions : jsstring) (voiceOptions : VoiceOptions)
    (h : history) :
  exists evs k,
    snd (generateSpeech axios_post TextDecoder_decode
           text voice instructions voiceOptions h) = h ++ evs /\
    (1 <= k <= 3)%nat /\
    posts evs = repeat (request text voice instructions voiceOptions) k /\
    persisted evs = [] /\
    Forall (fun e => match e with
                     | EvPost _ _ | EvSleep _ => True
                     | _ => False
                     end) evs.
Proof.
  destruct (@retry_loop_budget axios_post TextDecoder_decode
              (request text voice instructions voiceOptions) 3 0 h)
    as (evs & k & Hevs & Hk & Hposts & _ & Hfiles & Honly);
    [unfold maxRetries; lia | reflexivity |].
  exists evs, k. repeat split; try assumption; lia.
Qed.

Lemma forward_slashes_no_backslash (s : jsstring) :
  ~ In 92%N (forward_slashes s).
Proof.
  unfold forward_slashes. intros Hin. apply in_map_iff in Hin.
  destruct Hin as (c & Hc & _).
  destruct (N.eqb_spec c 92); [discriminate | congruence].
Qed.

Lemma js_injective (s t : string) : js s = js t -> s = t.
Proof.
  unfold js. intros Heq.
  rewrite <- (string_of_list_ascii_of_string s),
          <- (string_of_list_ascii_of_string t).
  f_equal. revert Heq.
  generalize (list_ascii_of_string s) (list_ascii_of_string t).
  induction l as [|a l IH]; intros [|b l']; simpl; try discriminate;
    [reflexivity|].
  intros [= Hab Hrest]. f_equal; [|now apply IH].
  rewrite <- (ascii_N_embedding a), <- (ascii_N_embedding b). now rewrite Hab.
Qed.

Lemma to_uint_not_Nil (n : nat) : Nat.to_uint n <> Decimal.Nil.
Proof.
  intros Hnil.
  pose proof (Unsigned.to_of (Nat.to_uint n)) as Hnorm.
  rewrite Unsigned.of_to, Hnil in Hnorm. discriminate.
Qed.

(** Different numbers are rendered differently. *)
Lemma decimal_injective (n m : nat) : decimal n = decimal m -> n = m.
Proof.
  unfold decimal. intros Heq. apply js_injective in Heq.
  apply Unsigned.to_uint_inj.
  pose proof (NilZero.usu _ (@to_uint_not_Nil n)) as Hn.
  pose proof (NilZero.usu _ (@to_uint_not_Nil m)) as Hm.
  rewrite Heq in Hn. congruence.
Qed.

Lemma StronglySorted_lt_NoDup (l : list nat) : StronglySorted lt l -> NoDup l.
Proof.
  induction 1 as [|a l Hsorted IH Hall]; constructor; [|exact IH].
  intros Hin. rewrite Forall_forall in Hall. specialize (Hall a Hin). lia.
Qed.

Lemma NoDup_map_injective (A B : Type) (f : A -> B) (l : list A) :
  (forall a b, f a = f b -> a = b) -> NoDup l -> NoDup (map f l).
Proof.
  intros Hinj. induction 1 as [|a l Hnotin Hnodup IH]; simpl; constructor;
    [|exact IH].
  intros Hin. apply in_map_iff in Hin. destruct Hin as (b & Hfb & Hb).
  apply Hinj in Hfb. now subst.
Qed.

Section GeneratorExtras.

Variable axios_post : history -> payload -> axios_outcome.
Variable TextDecoder_decode : buffer -> completion jsstring.
Variable path_join : jsstring -> jsstring -> jsstring.
Variable writeFileSync : history -> jsstring -> buffer -> option js_error.
Variables outputDir voice instructions : jsstring.

Local Abbreviation synth :=
  (generateSpeech axios_post TextDecoder_decode).
Local Abbreviation loop chunks :=
  (segment_loop axios_post TextDecoder_decode path_join writeFileSync
     chunks outputDir voice instructions).
Local Abbreviation file i := (chunk_path path_join outputDir i).
Local Abbreviation generate :=
  (generateSpeechFromDocument axios_post TextDecoder_decode path_join
     writeFileSync).

(** What the requests of a run have in common. *)
Local Abbreviation from_run chunks :=
  (fun p : payload =>
     model p = js "gpt-4o-mini-tts" /\ World.voice p = voice /\
     World.instructions p = instructions /\ In (input p) chunks).

Local Abbreviation no_exec :=
  (fun e : event => match e with EvExec _ _ => False | _ => True end).

Local Abbreviation no_write :=
  (fun e : event => match e with EvWrite _ _ _ => False | _ => True end).

Lemma segment_loop_budget (chunks : list jsstring) (k : nat) :
  forall i filePaths h,
    (length chunks - i = k)%nat ->
    exists evs,
      snd (loop chunks i filePaths h) = h ++ evs /\
      (k <= length (posts evs) <= 3 * k)%nat /\
      Forall (from_run chunks) (posts evs) /\
      Forall no_exec evs.
Proof.
  induction k as [|k IH]; intros i filePaths h Hk; rewrite segment_loop_unfold.
  - destruct (Nat.ltb_spec i (length chunks)); [lia|].
    exists []. simpl. rewrite app_nil_r. repeat split; auto.
  - destruct (Nat.ltb_spec i (length chunks)); [|lia].
    destruct (generateSpeech_budget axios_post TextDecoder_decode
                (nth i chunks []) voice instructions no_options h)
      as (evs & n & Hevs & Hn & Hposts & _ & Honly).
    assert (Hcall : Forall (from_run chunks) (posts evs)).
    { rewrite Hposts. apply Forall_forall. intros p Hp.
      apply repeat_spec in Hp. subst p. simpl.
      repeat split. apply nth_In. lia. }
    assert (Hnoexec : Forall no_exec evs).
    { eapply Forall_impl; [|exact Honly]. now intros []. }
    assert (Hcount : length (posts evs) = n)
      by (now rewrite Hposts, repeat_length).
    destruct (synth (nth i chunks []) voice instructions no_options h)
      as [[audio|e] h1]; simpl in Hevs; subst h1.
    + destruct (writeFileSync (h ++ evs) (file i) audio) as [e|].
      * destruct (IH (S i) filePaths
                    ((h ++ evs) ++ [EvWrite (file i) audio (Some e)]))
          as (rest & Hrest & Hbound & Hall & Hex); [lia|].
        exists (evs ++ EvWrite (file i) audio (Some e) :: rest).
        split; [rewrite Hrest, <- !app_assoc; reflexivity|].
        rewrite posts_app. simpl. rewrite length_app.
        split; [lia|]. split; [now apply Forall_app|].
        apply Forall_app. split; [exact Hnoexec|]. now constructor.
      * destruct (IH (S i) (filePaths ++ [forward_slashes (file i)])
                    ((h ++ evs) ++ [EvWrite (file i) audio None]))
          as (rest & Hrest & Hbound & Hall & Hex); [lia|].
        exists (evs ++ EvWrite (file i) audio None :: rest).
        split; [rewrite Hrest, <- !app_assoc; reflexivity|].
        rewrite posts_app. simpl. rewrite length_app.
        split; [lia|]. split; [now apply Forall_app|].
        apply Forall_app. split; [exact Hnoexec|]. now constructor.
    + destruct (IH (S i) filePaths (h ++ evs))
        as (rest & Hrest & Hbound & Hall & Hex); [lia|].
      exists (evs ++ rest).
      split; [rewrite Hrest, <- !app_assoc; reflexivity|].
      rewrite posts_app, length_app.
      split; [lia|]. split; now apply Forall_app.
Qed.

Lemma generate_snd (document : jsstring) (chunks : list jsstring)
    (h : history) :
  splitDocument document (of_Z 1000) = Return chunks ->
  generate document outputDir voice instructions h
  = (Return (fst (loop chunks 0%nat [] h)), snd (loop chunks 0%nat [] h)).
Proof.
  intros Hsplit. unfold generateSpeechFromDocument. cbv zeta. rewrite Hsplit.
  now destruct (loop chunks 0%nat [] h).
Qed.

(** X12: a run sends at least one request for each segment and at most
    three, so between n and 3n requests for a document of n segments; and it
    runs no command. *)
Theorem orchestrator_request_budget (document : jsstring) (h : history) :
  exists chunks evs,
    splitDocument document (of_Z 1000) = Return chunks /\
    snd (generate document outputDir voice instructions h) = h ++ evs /\
    (length chunks <= length (posts evs) <= 3 * length chunks)%nat /\
    Forall (fun e => match e with EvExec _ _ => False | _ => True end) evs.
Proof.
  destruct (splitDocument_1000 document) as (chunks & Hsplit).
  destruct (@segment_loop_budget chunks (length chunks) 0%nat [] h)
    as (evs & Hevs & Hbound & _ & Hex); [lia|].
  exists chunks, evs. rewrite (@generate_snd document chunks h Hsplit). simpl.
  repeat split; try assumption; lia.
Qed.

(** X13: every request of a run names the model [gpt-4o-mini-tts], carries
    the voice and the instructions given to the run, the instructions
    without any hint added, and has one of the segments as its input. *)
Theorem orchestrator_request_contents (document : jsstring) (h : history) :
  exists chunks evs,
    splitDocument document (of_Z 1000) = Return chunks /\
    snd (generate document outputDir voice instructions h) = h ++ evs /\
    Forall (fun p => model p = js "gpt-4o-mini-tts" /\ World.voice p = voice /\
                     World.instructions p = instructions /\
                     In (input p) chunks) (posts evs).
Proof.
  destruct (splitDocument_1000 document) as (chunks & Hsplit).
  destruct (@segment_loop_budget chunks (length chunks) 0%nat [] h)
    as (evs & Hevs & _ & Hall & _); [lia|].
  exists chunks, evs. rewrite (@generate_snd document chunks h Hsplit). simpl.
  repeat split; assumption.
Qed.

End GeneratorExtras.

Section GeneratorScenarios.

Variable axios_post : history -> payload -> axios_outcome.
Variable TextDecoder_decode : buffer -> completion jsstring.
Variable path_join : jsstring -> jsstring -> jsstring.
Variable writeFileSync : history -> jsstring -> buffer -> option js_error.
Variables outputDir voice instructions : jsstring.

Local Abbreviation synth :=
  (generateSpeech axios_post TextDecoder_decode).
Local Abbreviation loop chunks :=
  (segment_loop axios_post TextDecoder_decode path_join writeFileSync
     chunks outputDir voice instructions).
Local Abbreviation file i := (chunk_path path_join outputDir i).
Local Abbreviation generate :=
  (generateSpeechFromDocument axios_post TextDecoder_decode path_join
     writeFileSync).

Lemma generate_loop (document : jsstring) (chunks : list jsstring)
    (h : history) :
  splitDocument document (of_Z 1000) = Return chunks ->
  generate document outputDir voice instructions h
  = (Return (fst (loop chunks 0%nat [] h)), snd (loop chunks 0%nat [] h)).
Proof.
  intros Hsplit. unfold generateSpeechFromDocument. cbv zeta. rewrite Hsplit.
  now destruct (loop chunks 0%nat [] h).
Qed.

(** With a remote that fulfils every request and a file system that takes
    every write, each segment costs one request and gives one file. *)
Lemma segment_loop_all_succeed (chunks : list jsstring) (k : nat) :
  (forall h p, exists status data, axios_post h p = Fulfilled status data) ->
  (forall h path data, writeFileSync h path data = None) ->
  forall i filePaths h,
    (length chunks - i = k)%nat ->
    exists evs,
      loop chunks i filePaths h
      = (filePaths ++ map (fun j => forward_slashes (file j)) (seq i k),
         h ++ evs) /\
      length (posts evs) = k /\
      sleeps evs = [] /\
      persisted evs = map (fun j => file j) (seq i k).
Proof.
  intros Hremote Hdisk.
  induction k as [|k IH]; intros i filePaths h Hk; rewrite segment_loop_unfold.
  - destruct (Nat.ltb_spec i (length chunks)); [lia|].
    exists []. simpl. rewrite !app_nil_r. repeat split.
  - destruct (Nat.ltb_spec i (length chunks)); [|lia].
    unfold generateSpeech. rewrite retry_loop_unfold.
    simpl (0 <? maxRetries). cbv iota.
    set (p := request (nth i chunks []) voice instructions no_options).
    destruct (Hremote h p) as (status & data & ->).
    change (0 <? maxRetries) with true. cbv beta iota. rewrite Hdisk.
    destruct (IH (S i) (filePaths ++ [forward_slashes (file i)])
                ((h ++ [EvPost p (Fulfilled status data)])
                   ++ [EvWrite (file i) data None]))
      as (evs & Hloop & Hposts & Hsleeps & Hfiles); [lia|].
    exists (EvPost p (Fulfilled status data) :: EvWrite (file i) data None :: evs).
    split.
    + rewrite Hloop, <- !app_assoc. reflexivity.
    + simpl. rewrite Hposts, Hsleeps, Hfiles. repeat split.
Qed.

(** With a remote that rejects every request, no segment is ever written. *)
Lemma retry_loop_all_rejected (p : payload) (n : nat) :
  (forall h q, exists error, axios_post h q = Rejected error) ->
  forall attempt h,
    0 <= attempt < maxRetries -> Z.to_nat (maxRetries - attempt) = n ->
    exists e, fst (retry_loop axios_post TextDecoder_decode p attempt h) = Throw e.
Proof.
  intros Hremote. induction n as [|n IH]; intros attempt h Hatt Hn; [lia|].
  rewrite retry_loop_unfold.
  destruct (Z.ltb_spec attempt maxRetries); [|lia].
  destruct (Hremote h p) as (error & ->).
  destruct (on_error TextDecoder_decode (attempt + 1) error) as [e|] eqn:He.
  - now exists e.
  - destruct (Z.lt_ge_cases (attempt + 1) maxRetries) as [Hnext|Hlast];
      [|now destruct (@on_error_last TextDecoder_decode (attempt + 1) error)].
    apply IH; lia.
Qed.

Lemma segment_loop_all_rejected (chunks : list jsstring) (k : nat) :
  (forall h q, exists error, axios_post h q = Rejected error) ->
  forall i filePaths h,
    (length chunks - i = k)%nat ->
    exists evs,
      loop chunks i filePaths h = (filePaths, h ++ evs) /\
      Forall (fun e => match e with EvWrite _ _ _ => False | _ => True end) evs.
Proof.
  intros Hremote.
  induction k as [|k IH]; intros i filePaths h Hk; rewrite segment_loop_unfold.
  - destruct (Nat.ltb_spec i (length chunks)); [lia|].
    exists []. rewrite app_nil_r. split; [reflexivity | constructor].
  - destruct (Nat.ltb_spec i (length chunks)); [|lia].
    destruct (@retry_loop_all_rejected
                (request (nth i chunks []) voice instructions no_options)
                3 Hremote 0 h) as (e & Hthrow);
      [unfold maxRetries; lia | reflexivity |].
    destruct (generateSpeech_budget axios_post TextDecoder_decode
                (nth i chunks []) voice instructions no_options h)
      as (evs & n & Hevs & _ & _ & _ & Honly).
    unfold generateSpeech in *.
    destruct (retry_loop axios_post TextDecoder_decode
                (request (nth i chunks []) voice instructions no_options) 0 h)
      as [r h1]. simpl in Hthrow, Hevs. subst r h1.
    destruct (IH (S i) filePaths (h ++ evs)) as (rest & Hloop & Hnone); [lia|].
    exists (evs ++ rest). split; [now rewrite Hloop, <- app_assoc|].
    apply Forall_app. split; [|exact Hnone].
    eapply Forall_impl; [|exact Honly]. now intros [].
Qed.

(** X14: when the remote fulfils every request and every write succeeds,
    the run over a document of n segments returns the paths of
    [chunk_1.mp3], [chunk_2.mp3], up to [chunk_n.mp3] in the output
    directory, in this order and with forward slashes; it sends exactly n
    requests, never waits, and writes exactly these n files. *)
Theorem orchestrator_all_succeed (document : jsstring) (h : history) :
  (forall h p, exists status data, axios_post h p = Fulfilled status data) ->
  (forall h path data, writeFileSync h path data = None) ->
  let written := fun i : nat =>
    path_join outputDir (js "chunk_" ++ decimal (i + 1) ++ js ".mp3") in
  exists chunks evs,
    splitDocument document (of_Z 1000) = Return chunks /\
    generate document outputDir voice instructions h
    = (Return (map (fun i => forward_slashes (written i))
                 (seq 0 (length chunks))),
       h ++ evs) /\
    length (posts evs) = length chunks /\
    sleeps evs = [] /\
    persisted evs = map written (seq 0 (length chunks)).
Proof.
  intros Hremote Hdisk written.
  assert (Hname : forall i, chunk_path path_join outputDir i = written i)
    by reflexivity.
  destruct (splitDocument_1000 document) as (chunks & Hsplit).
  destruct (@segment_loop_all_succeed chunks (length chunks) Hremote Hdisk
              0%nat [] h) as (evs & Hloop & Hposts & Hsleeps & Hfiles); [lia|].
  exists chunks, evs. rewrite (@generate_loop document chunks h Hsplit), Hloop.
  repeat split; assumption.
Qed.

(** X15: when the remote rejects every request, the run still returns
    normally, with an empty list of paths, and writes no file at all. *)
Theorem orchestrator_all_fail (document : jsstring) (h : history) :
  (forall h q, exists error, axios_post h q = Rejected error) ->
  exists evs,
    generate document outputDir voice instructions h = (Return [], h ++ evs) /\
    Forall (fun e => match e with EvWrite _ _ _ => False | _ => True end) evs.
Proof.
  intros Hremote.
  destruct (splitDocument_1000 document) as (chunks & Hsplit).
  destruct (@segment_loop_all_rejected chunks (length chunks) Hremote
              0%nat [] h) as (evs & Hloop & Hnone); [lia|].
  exists evs. rewrite (@generate_loop document chunks h Hsplit), Hloop.
  split; [reflexivity | exact Hnone].
Qed.

(** X16: for a document that is empty or made of white space only, the run
    returns an empty list at once: no request is sent and nothing is
    written. *)
Theorem orchestrator_blank_document (document : jsstring) (h : history) :
  blank document = true ->
  generate document outputDir voice instructions h = (Return [], h).
Proof.
  intros Hblank.
  rewrite (@generate_loop document [] h (splitDocument_blank _ _ Hblank)).
  now rewrite segment_loop_unfold.
Qed.

(** X17: no path returned by a run contains a backslash. *)
Theorem orchestrator_paths_forward_slashes (document : jsstring)
    (h : history) :
  exists filePaths,
    fst (generate document outputDir voice instructions h) = Return filePaths /\
    Forall (fun path => ~ In 92%N path) filePaths.
Proof.
  destruct (@generate_runs axios_post TextDecoder_decode path_join
              writeFileSync document outputDir voice instructions h)
    as (chunks & runs & _ & Hrun & Hruns).
  destruct (@runs_indices _ _ _ _ _ _ _ _ Hruns) as (idxs & Hpaths & _).
  eexists. split; [rewrite Hrun; reflexivity|].
  apply Forall_forall. intros path Hin.
  assert (Hin' : In path (map (fun j => forward_slashes (file j)) idxs)).
  { revert Hin. apply eq_ind with (P := fun l => In path l -> _) (x := map (fun j => forward_slashes (file j)) idxs); [auto|].
    symmetry. exact Hpaths. }
  apply in_map_iff in Hin'. destruct Hin' as (j & <- & _).
  apply forward_slashes_no_backslash.
Qed.

(** X18: the files written during a run are pairwise different, so no
    segment overwrites the file of another, as long as [path.join] gives
    different paths in the output directory for the different names
    [chunk_1.mp3], [chunk_2.mp3] and so on; these names are different for
    different segments. *)
Theorem orchestrator_files_distinct (document : jsstring) (h : history) :
  let name := fun i : nat => js "chunk_" ++ decimal (i + 1) ++ js ".mp3" in
  (forall i j, path_join outputDir (name i) = path_join outputDir (name j) ->
               name i = name j) ->
  (forall i j, name i = name j -> i = j) /\
  exists evs,
    snd (generate document outputDir voice instructions h) = h ++ evs /\
    NoDup (persisted evs).
Proof.
  intros name Hjoin.
  assert (Hname : forall i j, name i = name j -> i = j).
  { intros i j Heq. unfold name in Heq.
    apply app_inv_head, app_inv_tail, decimal_injective in Heq. lia. }
  split; [exact Hname|].
  destruct (@generate_runs axios_post TextDecoder_decode path_join
              writeFileSync document outputDir voice instructions h)
    as (chunks & runs & _ & Hrun & Hruns).
  destruct (@runs_indices _ _ _ _ _ _ _ _ Hruns)
    as (idxs & _ & Hfiles & Hsort & _).
  exists (concat (map fst runs)). split; [now rewrite Hrun|].
  replace (persisted (concat (map fst runs)))
    with (map (fun j => path_join outputDir (name j)) idxs)
    by (symmetry; exact Hfiles).
  apply NoDup_map_injective; [|now apply StronglySorted_lt_NoDup].
  intros i j Heq. apply Hname, Hjoin, Heq.
Qed.

End GeneratorScenarios.

Lemma orchestrator_all_succeed_witness :
  generateSpeechFromDocument Sample.remote_ok Sample.decode Sample.join_posix
    Sample.disk Sample.three_segments (js "out") (js "alloy")
    (js "Speak in a neutral tone.") []
  = (Return [js "out/chunk_1.mp3"; js "out/chunk_2.mp3"; js "out/chunk_3.mp3"],
     snd (generateSpeechFromDocument Sample.remote_ok Sample.decode
            Sample.join_posix Sample.disk Sample.three_segments (js "out")
            (js "alloy") (js "Speak in a neutral tone.") [])) /\
  persisted
    (snd (generateSpeechFromDocument Sample.remote_ok Sample.decode
            Sample.join_posix Sample.disk Sample.three_segments (js "out")
            (js "alloy") (js "Speak in a neutral tone.") []))
  = [js "out/chunk_1.mp3"; js "out/chunk_2.mp3"; js "out/chunk_3.mp3"].
Proof.
  destruct (@orchestrator_all_succeed Sample.remote_ok Sample.decode
              Sample.join_posix Sample.disk (js "out") (js "alloy")
              (js "Speak in a neutral tone.") Sample.three_segments [])
    as (chunks & evs & Hsplit & Hrun & _ & _ & Hfiles).
  - intros h p. exists 200, []. reflexivity.
  - reflexivity.
  - assert (Hthree : length chunks = 3%nat).
    { vm_compute in Hsplit. injection Hsplit as <-. reflexivity. }
    rewrite Hrun. cbn [snd app]. rewrite Hfiles, Hthree. split; reflexivity.
Defined.

Lemma orchestrator_all_fail_witness :
  let remote := fun (_ : history) (_ : payload) =>
                  Rejected (WithResponse 500 None) in
  let disk := fun (_ : history) (_ : jsstring) (_ : buffer) =>
                @None js_error in
  let join_posix := fun dir name : jsstring => dir ++ js "/" ++ name in
  exists evs,
    generateSpeechFromDocument remote (fun _ => Return []) join_posix disk
      (js "hello") (js "out") (js "alloy") (js "Speak in a neutral tone.") []
    = (Return [], [] ++ evs) /\
    Forall (fun e => match e with EvWrite _ _ _ => False | _ => True end) evs.
Proof.
  intros remote disk join_posix.
  apply (@orchestrator_all_fail remote (fun _ => Return []) join_posix disk
           (js "out") (js "alloy") (js "Speak in a neutral tone.")
           (js "hello") []).
  intros h q. exists (WithResponse 500 None). reflexivity.
Defined.

Lemma orchestrator_blank_document_witness :
  let remote := fun (_ : history) (_ : payload) => Fulfilled 200 [] in
  let disk := fun (_ : history) (_ : jsstring) (_ : buffer) =>
                @None js_error in
  let join_posix := fun dir name : jsstring => dir ++ js "/" ++ name in
  generateSpeechFromDocument remote (fun _ => Return []) join_posix disk
    (js "   ") (js "out") (js "alloy") (js "Speak in a neutral tone.") []
  = (Return [], []).
Proof.
  intros remote disk join_posix.
  apply (@orchestrator_blank_document remote (fun _ => Return []) join_posix
           disk (js "out") (js "alloy") (js "Speak in a neutral tone.")
           (js "   ") []).
  reflexivity.
Defined.

Lemma orchestrator_files_distinct_witness :
  NoDup
    (persisted
       (snd (generateSpeechFromDocument Sample.remote_ok Sample.decode
               Sample.join_posix Sample.disk Sample.three_segments (js "out")
               (js "alloy") (js "Speak in a neutral tone.") []))) /\
  length
    (persisted
       (snd (generateSpeechFromDocument Sample.remote_ok Sample.decode
               Sample.join_posix Sample.disk Sample.three_segments (js "out")
               (js "alloy") (js "Speak in a neutral tone.") []))) = 3%nat.
Proof.
  split; [|reflexivity].
  destruct (@orchestrator_files_distinct Sample.remote_ok Sample.decode
              Sample.join_posix Sample.disk (js "out") (js "alloy")
              (js "Speak in a neutral tone.") Sample.three_segments [])
    as (_ & evs & Hevs & Hnodup).
  - intros i j Heq. unfold Sample.join_posix in Heq.
    now apply app_inv_head, app_inv_head in Heq.
  - rewrite Hevs. exact Hnodup.
Defined.

(** * Properties of [expandAbbreviations] *)

Section Abbreviations.

Example expand_glued : expandAbbreviations (js "Dr.Smith") = js "DoctorSmith".
Proof. reflexivity. Qed.

Example pattern_of_eg : pattern_source (js "e.g.") = js "\be\.g.\b".
Proof. reflexivity. Qed.

Lemma dot_before_word_tail (c : code_unit) (s : jsstring) :
  dot_before_word (c :: s) = false -> dot_before_word s = false.
Proof. simpl. intros H. now apply orb_false_iff in H. Qed.

(** Such an expression matches nowhere in a text without a dot directly
    followed by a word character. *)
Lemma match_here_needs_dot (r : list atom) :
  needs_dot_before_word r = true ->
  forall prev s, dot_before_word s = false -> match_here r prev s = None.
Proof.
  induction r as [|a r IH]; intros Hneeds prev s Hs; [discriminate|].
  destruct a as [c| |].
  - simpl in Hneeds. destruct s as [|d s]; [reflexivity|]. simpl.
    destruct (N.eqb_spec d c) as [<-|]; [|reflexivity].
    apply orb_true_iff in Hneeds. destruct Hneeds as [Hdot|Hrest].
    + apply andb_true_iff in Hdot. destruct Hdot as [Hc Hnext].
      simpl in Hs. rewrite Hc in Hs. simpl in Hs.
      apply orb_false_iff in Hs. destruct Hs as [Hhead _].
      apply N.eqb_eq in Hc. subst d.
      destruct r as [|[w| |] r]; try discriminate; simpl.
      * destruct s as [|e s]; [reflexivity|].
        destruct (N.eqb_spec e w) as [<-|]; [|reflexivity].
        simpl in Hhead. congruence.
      * change (word_at (Some 46%N)) with false. rewrite Hhead. reflexivity.
    + rewrite (IH Hrest (Some d) s (@dot_before_word_tail d s Hs)). reflexivity.
  - simpl in Hneeds. destruct s as [|d s]; [reflexivity|]. simpl.
    destruct (is_line_terminator d); [reflexivity|].
    rewrite (IH Hneeds (Some d) s (@dot_before_word_tail d s Hs)). reflexivity.
  - simpl in Hneeds. simpl.
    destruct (xorb _ _); [|reflexivity]. now apply IH.
Qed.

Lemma replace_from_no_match (r : list atom) (replacement : jsstring) :
  needs_dot_before_word r = true ->
  forall s prev,
    dot_before_word s = false -> replace_from r replacement 0 prev s = s.
Proof.
  intros Hneeds. induction s as [|c s IH]; intros prev Hs.
  - simpl. now rewrite (@match_here_needs_dot r Hneeds prev [] eq_refl).
  - cbn [replace_from].
    rewrite (@match_here_needs_dot r Hneeds prev (c :: s) Hs).
    f_equal. apply IH. exact (@dot_before_word_tail c s Hs).
Qed.

(** X19: a text in which no dot is directly followed by a letter, a digit
    or an underscore is returned unchanged by [expandAbbreviations]; so an
    abbreviation that ends a sentence or is followed by a space, as in
    "Dr. Smith", is not expanded. *)
Theorem expandAbbreviations_unchanged (text : jsstring) :
  dot_before_word text = false -> expandAbbreviations text = text.
Proof.
  intros Hs. unfold expandAbbreviations, abbreviations, replace_all.
  cbn [fold_left fst snd].
  repeat match goal with
         | |- context [replace_from ?r ?rep 0 None text] =>
             rewrite (@replace_from_no_match r rep eq_refl text None Hs)
         end.
  reflexivity.
Qed.

End Abbreviations.

Lemma expandAbbreviations_unchanged_witness :
  expandAbbreviations (js "Dr. Smith met Mr. Jones, etc.")
  = js "Dr. Smith met Mr. Jones, etc.".
Proof.
  apply (@expandAbbreviations_unchanged (js "Dr. Smith met Mr. Jones, etc.")).
  reflexivity.
Defined.

(** * Properties of the request handlers *)

Lemma blank_trim (t : jsstring) : blank (trim t) = blank t.
Proof.
  unfold trim, trimEnd.
  now rewrite blank_rev, blank_trimStart, blank_rev, blank_trimStart.
Qed.

Lemma trim_length_zero (t : jsstring) :
  (length (trim t) =? 0)%nat = blank t.
Proof.
  pose proof (truthy_trim t) as Htruthy. revert Htruthy.
  destruct (trim t); simpl; destruct (blank t); simpl; congruence.
Qed.

(** A text of at most 5000 code units is cut into at most five segments. *)
Lemma chunks_of_bounded_text (document : jsstring) (chunks : list jsstring) :
  splitDocument document (of_Z 1000) = Return chunks ->
  (length document <= 5000)%nat ->
  (length chunks <= 5)%nat /\ (blank document = false -> (1 <= length chunks)%nat).
Proof.
  intros Hsplit Hlen. destruct (blank document) eqn:Hb.
  - rewrite splitDocument_blank in Hsplit by exact Hb.
    injection Hsplit as <-. simpl. split; [lia | discriminate].
  - rewrite (@splitDocument_closed_form document (of_Z 1000) 1000 Hb) in Hsplit;
      [| lia | reflexivity].
    injection Hsplit as <-. rewrite length_map, length_seq.
    pose proof (@ceil_div_spec (Z.of_nat (length document)) 1000) as Hspec.
    pose proof (@blank_nonempty document Hb) as Hpos.
    split; [|intros _]; lia.
Qed.

Section RunSummary.

Variable axios_post : history -> payload -> axios_outcome.
Variable TextDecoder_decode : buffer -> completion jsstring.
Variable path_join : jsstring -> jsstring -> jsstring.
Variable writeFileSync : history -> jsstring -> buffer -> option js_error.

Local Abbreviation generate :=
  (generateSpeechFromDocument axios_post TextDecoder_decode path_join
     writeFileSync).

(** What the handlers rely on: a run never throws, and its requests and
    files are bounded by the number of segments. *)
Lemma generate_summary (document outputDir voice instructions : jsstring)
    (h : history) :
  exists chunks filePaths evs,
    splitDocument document (of_Z 1000) = Return chunks /\
    generate document outputDir voice instructions h
    = (Return filePaths, h ++ evs) /\
    (length (posts evs) <= 3 * length chunks)%nat /\
    (length filePaths <= length chunks)%nat /\
    length (persisted evs) = length filePaths /\
    (blank document = false -> (1 <= length (posts evs))%nat).
Proof.
  destruct (@generate_runs axios_post TextDecoder_decode path_join
              writeFileSync document outputDir voice instructions h)
    as (chunks & runs & Hsplit & Hrun & Hruns).
  destruct (@runs_indices _ _ _ _ _ _ _ _ Hruns)
    as (idxs & Hpaths & Hfiles & _ & _ & Hlen).
  destruct (@segment_loop_budget axios_post TextDecoder_decode path_join
              writeFileSync outputDir voice instructions chunks
              (length chunks) 0%nat [] h)
    as (evs & Hevs & Hbound & _); [lia|].
  pose proof (@generate_snd axios_post TextDecoder_decode path_join
                writeFileSync outputDir voice instructions document chunks h
                Hsplit) as Hgen.
  rewrite Hrun in Hgen. injection Hgen as Hfst Hsnd.
  rewrite Hevs in Hsnd. apply app_inv_head in Hsnd.
  exists chunks, (concat (map snd runs)), evs.
  split; [exact Hsplit|]. split; [rewrite Hrun, Hsnd; reflexivity|].
  split; [lia|].
  assert (Hcount : length (concat (map snd runs)) = length idxs).
  { etransitivity; [apply f_equal; exact Hpaths|]. apply length_map. }
  split; [lia|]. split.
  - rewrite <- Hsnd. etransitivity; [apply f_equal; exact Hfiles|].
    rewrite length_map. lia.
  - intros Hb.
    assert (1 <= length chunks)%nat; [|lia].
    destruct chunks as [|c chunks]; [|simpl; lia].
    exfalso. rewrite (@splitDocument_closed_form document (of_Z 1000) 1000 Hb)
      in Hsplit; [| lia | reflexivity].
    injection Hsplit as Hnil. apply (f_equal (@length _)) in Hnil.
    rewrite length_map, length_seq in Hnil. simpl in Hnil.
    pose proof (@ceil_div_spec (Z.of_nat (length document)) 1000) as Hspec.
    pose proof (@blank_nonempty document Hb) as Hpos. lia.
Qed.

(** With a remote that rejects every request a run returns no path. *)
Lemma generate_all_rejected (document outputDir voice instructions : jsstring)
    (h : history) :
  (forall h q, exists error, axios_post h q = Rejected error) ->
  fst (generate document outputDir voice instructions h) = Return [].
Proof.
  intros Hremote.
  destruct (splitDocument_1000 document) as (chunks & Hsplit).
  destruct (@segment_loop_all_rejected axios_post TextDecoder_decode path_join
              writeFileSync outputDir voice instructions chunks
              (length chunks) Hremote 0%nat [] h) as (evs & Hloop & _); [lia|].
  rewrite (@generate_loop axios_post TextDecoder_decode path_join
             writeFileSync outputDir voice instructions document chunks h
             Hsplit), Hloop.
  reflexivity.
Qed.

End RunSummary.

Section HandlerProperties.

Variable axios_post : history -> payload -> axios_outcome.
Variable TextDecoder_decode : buffer -> completion jsstring.
Variable path_join : jsstring -> jsstring -> jsstring.
Variable writeFileSync : history -> jsstring -> buffer -> option js_error.
Variable path_basename : jsstring -> jsstring.
Variable path_dirname : jsstring -> jsstring.
Variable existsSync : history -> jsstring -> bool.
Variable mkdirSync : history -> jsstring -> option system_error.
Variable readFile : history -> jsstring -> jsstring + system_error.
Variable unlink : history -> jsstring -> option system_error.
Variable apiKey : jsstring.
Variable generatedDir : jsstring.
Variable development : bool.

Local Abbreviation generate :=
  (generateSpeechFromDocument axios_post TextDecoder_decode path_join
     writeFileSync).
Local Abbreviation handle_text :=
  (process_text axios_post TextDecoder_decode path_join writeFileSync
     path_basename path_dirname existsSync mkdirSync apiKey generatedDir
     development).
Local Abbreviation handle_file :=
  (process_file axios_post TextDecoder_decode path_join writeFileSync
     path_basename readFile unlink apiKey generatedDir development).

(** An error that is not an [OpenAIError] is answered with 504, 502 or
    500. *)
Lemma error_response_status (advice : jsstring) (error : thrown) :
  (forall m s c, error <> ThrownError (OpenAIError m s c)) ->
  In (status (error_response development advice error)) [504; 502; 500].
Proof.
  intros Hnot. unfold error_response.
  destruct error as [[m|m s c]|e]; [| now destruct (Hnot m s c) |];
    repeat match goal with
           | |- context [if ?b then _ else _] => destruct b
           end; simpl; auto.
Qed.

Lemma error_response_status_other (advice : jsstring) (error : thrown)
    (code : Z) :
  (forall m s c, error <> ThrownError (OpenAIError m s c)) ->
  ~ In code [504; 502; 500] ->
  status (error_response development advice error) <> code.
Proof.
  intros Hnot Hcode Heq. apply Hcode. rewrite <- Heq.
  now apply error_response_status.
Qed.

Lemma new_SpeechGenerator_error (e : js_error) :
  new_SpeechGenerator apiKey = Throw e ->
  forall m s c, ThrownError e <> ThrownError (OpenAIError m s c).
Proof.
  unfold new_SpeechGenerator. destruct (negb (truthy_string apiKey));
    [|discriminate].
  intros [= <-]. discriminate.
Qed.

(** The text of a request that passes the checks of [/process-text]. *)
Lemma acceptable_text_inv (v : json_value) :
  acceptable_text v ->
  exists c t, v = JString (c :: t) /\
    (length (trim (c :: t)) =? 0)%nat = false /\
    (5000 <? length (trim (c :: t)))%nat = false /\
    blank (trim (c :: t)) = false.
Proof.
  intros (t & -> & Hb & Hlen). destruct t as [|c t]; [discriminate|].
  exists c, t. split; [reflexivity|].
  rewrite trim_length_zero, blank_trim, Hb.
  repeat split. apply Nat.ltb_ge. exact Hlen.
Qed.

(** X20: [/process-text] answers 400 exactly when the text is not
    acceptable, that is when it is missing, not a string, empty, made of
    white space only, or longer than 5000 code units once trimmed; the code
    is then [TEXT_REQUIRED], [TEXT_EMPTY] or [TEXT_TOO_LONG], and nothing
    has been sent or written. *)
Theorem process_text_validation (req : text_request) (now : nat)
    (h : history) :
  (~ acceptable_text (body_text req) ->
   exists message code,
     handle_text req now h = (mkResponse 400 (ErrorBody message code None), h) /\
     In code [js "TEXT_REQUIRED"; js "TEXT_EMPTY"; js "TEXT_TOO_LONG"]) /\
  (acceptable_text (body_text req) ->
   status (fst (handle_text req now h)) <> 400).
Proof.
  split.
  - intros Hbad. unfold process_text.
    destruct (body_text req) as [|[|c t]|b] eqn:Htext;
      try (do 2 eexists; split; [reflexivity | simpl; auto]).
    rewrite trim_length_zero.
    destruct (blank (c :: t)) eqn:Hb;
      [do 2 eexists; split; [reflexivity | simpl; auto]|].
    destruct (Nat.ltb_spec 5000 (length (trim (c :: t))));
      [do 2 eexists; split; [reflexivity | simpl; auto]|].
    exfalso. apply Hbad. exists (c :: t). repeat split; assumption.
  - intros Hok. apply acceptable_text_inv in Hok.
    destruct Hok as (c & t & Htext & Hzero & Hlong & Hb).
    unfold process_text. rewrite Htext, Hzero, Hlong. cbv zeta.
    destruct (new_SpeechGenerator apiKey) as [[]|e] eqn:Hnew.
    + match goal with
      | |- context [if negb (existsSync h ?d) then mkdirSync h ?d else None] =>
          destruct (if negb (existsSync h d) then mkdirSync h d else None)
            as [e|]
      end.
      * cbn [fst]. apply error_response_status_other; [discriminate|].
        simpl. intros [?|[?|[?|[]]]]; discriminate.
      * match goal with
        | |- context [generate ?d ?o ?v ?i h] =>
            destruct (@generate_summary axios_post TextDecoder_decode
                        path_join writeFileSync d o v i h)
              as (chunks & paths & evs & _ & -> & _)
        end.
        destruct (length paths =? 0)%nat; simpl; discriminate.
    + cbn [fst].
      apply error_response_status_other;
        [exact (new_SpeechGenerator_error Hnew)|].
      simpl. intros [?|[?|[?|[]]]]; discriminate.
Qed.

Local Abbreviation text_advice :=
  (js "The request to generate speech timed out. Try with a smaller text.").
Local Abbreviation file_advice :=
  (js "The request to generate speech timed out. Try with a smaller text file.").

Ltac directory_cases h :=
  match goal with
  | |- context [if negb (existsSync h ?d) then mkdirSync h ?d else None] =>
      destruct (if negb (existsSync h d) then mkdirSync h d else None)
        as [?e|] eqn:?Hdir
  end.

Ltac run_summary h :=
  match goal with
  | |- context [generate ?d ?o ?v ?i h] =>
      destruct (@generate_summary axios_post TextDecoder_decode
                  path_join writeFileSync d o v i h)
        as (?chunks & ?paths & ?evs & ?Hsplit & ?Hgen & ?Hposts & ?Hpaths
            & ?Hfiles & ?Hsome);
      rewrite Hgen
  end.


(** X22: the two handlers answer with status 200, 400, 500, 502 or 504 and
    no other; in particular the status of an [OpenAIError], such as 429, is
    never passed on, because no error of the synthesis leaves the run. *)
Theorem handlers_statuses (treq : text_request) (freq : file_request)
    (now : nat) (h : history) :
  In (status (fst (handle_text treq now h))) handler_statuses /\
  In (status (fst (handle_file freq h))) handler_statuses.
Proof.
  assert (Herr : forall advice error,
             (forall m s c, error <> ThrownError (OpenAIError m s c)) ->
             In (status (error_response development advice error))
               handler_statuses).
  { intros advice error Hnot.
    destruct (@error_response_status advice error Hnot) as [<-|[<-|[<-|[]]]];
      unfold handler_statuses; simpl; auto 10. }
  split.
  - unfold process_text.
    destruct (body_text treq) as [|[|c t]|b];
      try (unfold handler_statuses; simpl; auto; fail).
    destruct (length (trim (c :: t)) =? 0)%nat;
      [unfold handler_statuses; simpl; auto|].
    destruct (5000 <? length (trim (c :: t)))%nat;
      [unfold handler_statuses; simpl; auto|].
    cbv zeta. destruct (new_SpeechGenerator apiKey) as [[]|e] eqn:Hnew.
    + directory_cases h; [cbn [fst]; apply Herr; discriminate|].
      run_summary h.
      destruct (length paths =? 0)%nat; unfold handler_statuses; simpl; auto.
    + cbn [fst]. apply Herr. exact (new_SpeechGenerator_error Hnew).
  - unfold process_file.
    destruct (uploaded freq) as [file_path|];
      [|unfold handler_statuses; simpl; auto].
    cbv zeta. destruct (readFile h file_path) as [document|e];
      [|unfold handler_statuses; simpl; auto].
    destruct (negb (truthy_string (trim document)));
      [unfold handler_statuses; simpl; auto|].
    destruct (new_SpeechGenerator apiKey) as [[]|e] eqn:Hnew.
    + run_summary h.
      destruct (unlink (h ++ evs) file_path) as [e|];
        [cbn [fst]; apply Herr; discriminate|].
      destruct (length paths =? 0)%nat; unfold handler_statuses; simpl; auto.
    + cbn [fst]. apply Herr. exact (new_SpeechGenerator_error Hnew).
Qed.

(** X23: when the text is acceptable, the key is set and the directory of
    the session is there or can be made, but the remote rejects every
    request, [/process-text] answers 500 with the code
    [NO_FILES_GENERATED], whatever the errors of the synthesis were. *)
Theorem process_text_all_fail (req : text_request) (now : nat) (h : history) :
  acceptable_text (body_text req) ->
  truthy_string apiKey = true ->
  (forall h dir, existsSync h dir = true \/ mkdirSync h dir = None) ->
  (forall h q, exists error, axios_post h q = Rejected error) ->
  fst (handle_text req now h)
  = mkResponse 500
      (ErrorBody (js "Failed to generate any audio files.")
         (js "NO_FILES_GENERATED") None).
Proof.
  intros Hok Hkey Hdir Hremote. apply acceptable_text_inv in Hok.
  destruct Hok as (c & t & Htext & Hzero & Hlong & Hb).
  unfold process_text, new_SpeechGenerator.
  rewrite Htext, Hzero, Hlong, Hkey. cbv zeta. cbn [negb].
  match goal with
  | |- context [if negb (existsSync h ?d) then mkdirSync h ?d else None] =>
      replace (if negb (existsSync h d) then mkdirSync h d else None)
        with (@None system_error)
        by (destruct (Hdir h d) as [-> | Hmk]; [reflexivity|];
            now destruct (existsSync h d))
  end.
  match goal with
  | |- context [generate ?d ?o ?v ?i h] =>
      pose proof (@generate_all_rejected axios_post TextDecoder_decode
                    path_join writeFileSync d o v i h Hremote) as Hnone;
      destruct (generate d o v i h) as [r h']
  end.
  simpl in Hnone. subst r. reflexivity.
Qed.

(** X24: an answer of [/process-text] with status 200 lists between one and
    five files, gives their number as [totalChunks], and names the voice
    that was used, [alloy] when the request gave none. *)
Theorem process_text_success (req : text_request) (now : nat) (h : history) :
  status (fst (handle_text req now h)) = 200 ->
  exists files,
    body (fst (handle_text req now h))
    = SpeechBody (js "Speech generation complete") files (length files)
        (or_default (body_voice req) (js "alloy")) /\
    (1 <= length files <= 5)%nat.
Proof.
  unfold process_text.
  destruct (body_text req) as [|[|c t]|b]; try discriminate.
  destruct (length (trim (c :: t)) =? 0)%nat; [discriminate|].
  destruct (Nat.ltb_spec 5000 (length (trim (c :: t)))) as [|Hlen];
    [discriminate|].
  cbv zeta. destruct (new_SpeechGenerator apiKey) as [[]|e] eqn:Hnew.
  - directory_cases h.
    + cbn [fst]. intros H200. exfalso. revert H200.
      apply error_response_status_other; [discriminate|].
      simpl. intros [?|[?|[?|[]]]]; discriminate.
    + run_summary h.
      destruct (chunks_of_bounded_text _ Hsplit Hlen) as [Hfive _].
      destruct (Nat.eqb_spec (length paths) 0); [discriminate|].
      intros _. cbn [fst body]. eexists. split.
      * rewrite length_map. reflexivity.
      * rewrite length_map. lia.
  - cbn [fst]. intros H200. exfalso. revert H200.
    apply error_response_status_other;
      [exact (new_SpeechGenerator_error Hnew)|].
    simpl. intros [?|[?|[?|[]]]]; discriminate.
Qed.

(** The checks of the last handler of [/process]: it answers 400 exactly
    when there is no uploaded file, the file cannot be read, or it is blank. *)
Lemma process_file_checks (req : file_request) (h : history) :
  (~ usable_upload readFile req h ->
   exists message code,
     handle_file req h = (mkResponse 400 (ErrorBody message code None), h) /\
     In code [js "FILE_REQUIRED"; js "FILE_READ_ERROR"; js "EMPTY_FILE"]) /\
  (usable_upload readFile req h ->
   status (fst (handle_file req h)) <> 400).
Proof.
  unfold usable_upload, process_file.
  destruct (uploaded req) as [file_path|];
    [|split; [intros _; do 2 eexists; split; [reflexivity | simpl; auto]
             | contradiction]].
  cbv zeta. destruct (readFile h file_path) as [document|e];
    [|split; [intros _; do 2 eexists; split; [reflexivity | simpl; auto]
             | contradiction]].
  rewrite truthy_trim, negb_involutive.
  destruct (blank document);
    [split; [intros _; do 2 eexists; split; [reflexivity | simpl; auto 10]
            | discriminate]|].
  split; [intros Hbad; now destruct Hbad|]. intros _.
  destruct (new_SpeechGenerator apiKey) as [[]|e] eqn:Hnew.
  - run_summary h.
    destruct (unlink (h ++ evs) file_path) as [e|].
    + cbn [fst]. apply error_response_status_other; [discriminate|].
      simpl. intros [?|[?|[?|[]]]]; discriminate.
    + destruct (length paths =? 0)%nat; simpl; discriminate.
  - cbn [fst]. apply error_response_status_other;
      [exact (new_SpeechGenerator_error Hnew)|].
    simpl. intros [?|[?|[?|[]]]]; discriminate.
Qed.

(** X26: when the uploaded file cannot be deleted after the run,
    [/process] answers with an error, status 504, 502 or 500, and not with
    the list of the files, although the run has taken place: at least one
    request was sent to the synthesis service. *)
Theorem process_file_unlink_failure (req : file_request) (h : history)
    (file_path : jsstring) :
  uploaded req = Some file_path ->
  usable_upload readFile req h ->
  truthy_string apiKey = true ->
  (forall h', exists e, unlink h' file_path = Some e) ->
  In (status (fst (handle_file req h))) [504; 502; 500] /\
  exists evs,
    snd (handle_file req h) = h ++ evs /\ (1 <= length (posts evs))%nat.
Proof.
  intros Hfile Husable Hkey Hunlink.
  unfold usable_upload in Husable. unfold process_file, new_SpeechGenerator.
  rewrite Hfile in *. cbv zeta.
  destruct (readFile h file_path) as [document|e]; [|contradiction].
  rewrite truthy_trim, Husable, Hkey. cbn [negb].
  run_summary h.
  destruct (Hunlink (h ++ evs)) as (e & ->). cbn [fst snd]. split.
  - apply error_response_status. discriminate.
  - exists evs. split; [reflexivity | now apply Hsome].
Qed.

End HandlerProperties.

Section RouteProperties.

Variable axios_post : history -> payload -> axios_outcome.
Variable TextDecoder_decode : buffer -> completion jsstring.
Variable path_join : jsstring -> jsstring -> jsstring.
Variable writeFileSync : history -> jsstring -> buffer -> option js_error.
Variable path_basename : jsstring -> jsstring.
Variable readFile : history -> jsstring -> jsstring + system_error.
Variable unlink : history -> jsstring -> option system_error.
Variable apiKey : jsstring.
Variable generatedDir : jsstring.
Variable development : bool.

Local Abbreviation handle_route :=
  (process_route axios_post TextDecoder_decode path_join writeFileSync
     path_basename readFile unlink apiKey generatedDir development).


End RouteProperties.

Import Sample.

Lemma process_text_validation_witness :
  exists message code,
    process_text remote_ok decode join_posix disk same same there mkdir
      (js "key") (js "/tmp/generated") false nothing 0 []
    = (mkResponse 400 (ErrorBody message code None), []) /\
    In code [js "TEXT_REQUIRED"; js "TEXT_EMPTY"; js "TEXT_TOO_LONG"].
Proof.
  apply (@process_text_validation remote_ok decode join_posix disk same same
           there mkdir (js "key") (js "/tmp/generated") false nothing 0%nat []).
  intros (t & Ht & _). discriminate.
Defined.

Lemma process_text_all_fail_witness :
  fst (process_text remote_down decode join_posix disk same same there mkdir
         (js "key") (js "/tmp/generated") false hello 0 [])
  = mkResponse 500
      (ErrorBody (js "Failed to generate any audio files.")
         (js "NO_FILES_GENERATED") None).
Proof.
  apply (@process_text_all_fail remote_down decode join_posix disk same same
           there mkdir (js "key") (js "/tmp/generated") false hello 0%nat []).
  - exists (js "hello"). repeat split. simpl. lia.
  - reflexivity.
  - intros h dir. left. reflexivity.
  - intros h q. eexists. reflexivity.
Defined.

Lemma process_text_success_witness :
  exists files,
    body (fst (process_text remote_ok decode join_posix disk same same there
                 mkdir (js "key") (js "/tmp/generated") false hello 0 []))
    = SpeechBody (js "Speech generation complete") files (length files)
        (js "alloy") /\
    (1 <= length files <= 5)%nat.
Proof.
  apply (@process_text_success remote_ok decode join_posix disk same same
           there mkdir (js "key") (js "/tmp/generated") false hello 0%nat []).
  reflexivity.
Defined.


Lemma process_file_unlink_failure_witness :
  In (status (fst (process_file remote_ok decode join_posix disk same read
                     busy (js "key") (js "/tmp/generated") false upload [])))
     [504; 502; 500] /\
  exists evs,
    snd (process_file remote_ok decode join_posix disk same read busy
           (js "key") (js "/tmp/generated") false upload [])
    = [] ++ evs /\ (1 <= length (posts evs))%nat.
Proof.
  apply (@process_file_unlink_failure remote_ok decode join_posix disk same
           read busy (js "key") (js "/tmp/generated") false upload []
           (js "/tmp/uploads/f")).
  - reflexivity.
  - reflexivity.
  - reflexivity.
  - intros h'. eexists. reflexivity.
Defined.

